(** * BigNumber: canonical hexadecimal integers

    A shallow embedding of [packages/bignumber/src.ts/bignumber.ts]:
    the normaliser [toHex], the construction dispatcher [BigNumber.from],
    the decoder [toBN] and the operations that wrap the big-integer engine,
    followed by the properties of the canonical form. *)

From Stdlib Require Import Bool Arith Lia ZArith NArith List.
From Stdlib Require Import Ascii String.
From Stdlib Require Import Decimal Hexadecimal DecimalString HexadecimalString.
From Stdlib Require Import DecimalFacts HexadecimalFacts DecimalPos HexadecimalPos.
From Stdlib Require Import DecimalZ HexadecimalZ.
Import ListNotations.

Local Open Scope string_scope.

(** ** JavaScript strings *)

Module JS.

(** [s.substring(n)] *)
Definition substring_from (n : nat) (s : string) : string :=
  String.substring n (String.length s - n) s.

(** [s.substring(0, n)] *)
Definition substring_upto (n : nat) (s : string) : string :=
  String.substring 0 n s.

(** [s[0] === c]; false on the empty string, where [s[0]] is undefined. *)
Definition first_is (c : ascii) (s : string) : bool :=
  match s with
  | EmptyString => false
  | String a _ => Ascii.eqb a c
  end.

Fixpoint forallb (p : ascii -> bool) (s : string) : bool :=
  match s with
  | EmptyString => true
  | String a r => p a && forallb p r
  end.

Definition between (lo hi c : ascii) : bool :=
  (N_of_ascii lo <=? N_of_ascii c)%N && (N_of_ascii c <=? N_of_ascii hi)%N.

(** The class [[0-9]]. *)
Definition is_digit (c : ascii) : bool := between "0" "9" c.

(** The class [[0-9a-f]] without the [i] flag. *)
Definition is_lower_hex (c : ascii) : bool :=
  is_digit c || between "a" "f" c.

(** The class [[0-9a-f]] under the [i] flag. *)
Definition is_hex_i (c : ascii) : bool :=
  is_lower_hex c || between "A" "F" c.

(** The letter [x] under the [i] flag. *)
Definition is_x_i (c : ascii) : bool :=
  Ascii.eqb c "x" || Ascii.eqb c "X".

End JS.

(** ** Values and errors *)

(** The instance: its only data is the stored hex string ([_isBigNumber] is
    the constant [true]). *)
Record BigNumber : Type := mkBigNumber { _hex : string }.

(** A native [number]: an integral value, a finite value with a fractional
    part, [NaN], or an infinity. *)
Inductive number : Type :=
| NumInt (z : Z)
| NumFrac
| NumNaN
| NumInf (negative : bool).

(** What [BigNumber.from] and [isBigNumberish] can be handed ([any]).

    An object is seen through the three properties the code reads: a truthy
    [_isBigNumber], a string-valued [_hex], and the value its [toHexString]
    method returns. [VBytes] is a byte sequence ([isBytes] is true) with
    none of these properties, [VBytesObject] a byte sequence that has them
    as well (an array with a [_hex] property, say), and [VObject] an object
    that is neither an instance nor a byte sequence. *)
Inductive value : Type :=
| VNull
| VBigNumber (b : BigNumber)
| VString (s : string)
| VNumber (n : number)
| VBigInt (z : Z)
| VBytes (bytes : list Byte.byte)
| VObject (o : object)
| VBytesObject (bytes : list Byte.byte) (o : object)
with object : Type :=
| mkObject (isBigNumber_field : bool) (hex_field : option string)
           (toHexString_result : option value).

Definition obj_isBigNumber (o : object) : bool :=
  match o with mkObject b _ _ => b end.

Definition obj_hex (o : object) : option string :=
  match o with mkObject _ h _ => h end.

Definition obj_toHexString (o : object) : option value :=
  match o with mkObject _ _ r => r end.

(** The errors of [@ethersproject/errors], by code, with the parameters the
    code passes. [EngineFault] is an assertion failing inside the engine. *)
Inductive error : Type :=
| InvalidArgument (message : string) (name : string) (v : value)
| NumericFault (fault : string) (operation : string) (v : option value)
| UnexpectedArgument (message : string)
| TypeError
| EngineFault.

Inductive result (A : Type) : Type :=
| Ok (a : A)
| Err (e : error).
Arguments Ok {A} a.
Arguments Err {A} e.

Definition bind {A B : Type} (r : result A) (k : A -> result B) : result B :=
  match r with
  | Ok a => k a
  | Err e => Err e
  end.

Notation "'let*' x ':=' r 'in' k" := (bind r (fun x => k))
  (at level 10, x name, r at level 100, k at level 200).

(** [errors.throwArgumentError(message, name, value)] *)
Definition throwArgumentError {A : Type} (message name : string) (v : value)
  : result A :=
  Err (InvalidArgument message name v).

(** [throwFault(fault, operation, value?)] *)
Definition throwFault {A : Type} (fault operation : string) (v : option value)
  : result A :=
  Err (NumericFault fault operation v).

Definition is_InvalidArgument {A : Type} (r : result A) : bool :=
  match r with
  | Err (InvalidArgument _ _ _) => true
  | _ => false
  end.

Definition is_Ok {A : Type} (r : result A) : bool :=
  match r with
  | Ok _ => true
  | Err _ => false
  end.

(** ** The big-integer engine (bn.js), by its interface

    A [BN] is the integer it denotes. The constructor and [toString] are the
    engine's radix parser and renderer, as bn.js 4 has them. *)

Module BN.

Definition t : Type := Z.

(** [x.toString(16)]: lowercase digits, [-] before a negative value,
    ["0"] for zero. *)
Definition toString16 (x : t) : string :=
  HexadecimalString.NilEmpty.string_of_int (Z.to_hex_int x).

(** [x.toString(10)] *)
Definition toString10 (x : t) : string :=
  DecimalString.NilEmpty.string_of_int (Z.to_int x).

(** A strict reading of a string of hexadecimal digits, in either case,
    undefined on any other character; the constructor below agrees with it
    on such strings. *)
Definition lower (c : ascii) : ascii :=
  if JS.between "A" "F" c
  then ascii_of_N (N_of_ascii c + 32)
  else c.

Fixpoint hex_uint_of_string (s : string) : option Hexadecimal.uint :=
  match s with
  | EmptyString => Some Hexadecimal.Nil
  | String a r => HexadecimalString.uint_of_char (lower a) (hex_uint_of_string r)
  end.

(** The class [\s] on eight-bit characters. *)
Definition is_space (c : ascii) : bool :=
  let n := N_of_ascii c in
  ((9 <=? n) && (n <=? 13))%N || (n =? 32)%N || (n =? 160)%N.

(** [number.replace(/\s+/g, '')] *)
Fixpoint remove_spaces (s : string) : string :=
  match s with
  | EmptyString => EmptyString
  | String a r =>
      if is_space a then remove_spaces r else String a (remove_spaces r)
  end.

(** The digit the hex parser reads from one character: the letters [a-f]
    and [A-F] are ten to fifteen, and any other character [c] is the low
    four bits of [c - 48]. *)
Definition hex_digit (c : ascii) : N :=
  let n := N_of_ascii c in
  if JS.between "a" "f" c then (n - 87)%N
  else if JS.between "A" "F" c then (n - 55)%N
  else Z.to_N (Z.land (Z.of_N n - 48) 15).

(** One more digit, a value below sixteen, in front of a digit string. *)
Definition push_digit (n : N) (u : Hexadecimal.uint) : Hexadecimal.uint :=
  match n with
  | 0%N => Hexadecimal.D0 u
  | 1%N => Hexadecimal.D1 u
  | 2%N => Hexadecimal.D2 u
  | 3%N => Hexadecimal.D3 u
  | 4%N => Hexadecimal.D4 u
  | 5%N => Hexadecimal.D5 u
  | 6%N => Hexadecimal.D6 u
  | 7%N => Hexadecimal.D7 u
  | 8%N => Hexadecimal.D8 u
  | 9%N => Hexadecimal.D9 u
  | 10%N => Hexadecimal.Da u
  | 11%N => Hexadecimal.Db u
  | 12%N => Hexadecimal.Dc u
  | 13%N => Hexadecimal.Dd u
  | 14%N => Hexadecimal.De u
  | _ => Hexadecimal.Df u
  end.

(** The digits the hex parser reads from a string, every character being
    read as a digit. *)
Fixpoint read_hex (s : string) : Hexadecimal.uint :=
  match s with
  | EmptyString => Hexadecimal.Nil
  | String a r => push_digit (hex_digit a) (read_hex r)
  end.

(** [new BN(s, 16)]: white space is removed, a minus sign is read at the
    first position only, and the constructor returns for every string. *)
Definition of_hex (s : string) : option t :=
  let number := remove_spaces s in
  if JS.first_is "-" number
  then Some (Z.of_hex_int (Hexadecimal.Neg (read_hex (JS.substring_from 1 number))))
  else Some (Z.of_hex_int (Hexadecimal.Pos (read_hex number))).

(** [new BN(s)], radix ten *)
Definition of_dec (s : string) : option t :=
  option_map Z.of_int (DecimalString.NilEmpty.int_of_string s).

Definition eq (x y : t) : bool := Z.eqb x y.
Definition lt (x y : t) : bool := Z.ltb x y.
Definition lte (x y : t) : bool := Z.leb x y.
Definition gt (x y : t) : bool := Z.gtb x y.
Definition gte (x y : t) : bool := Z.geb x y.
Definition isZero (x : t) : bool := Z.eqb x 0.

(** The arithmetic the wrapper delegates: each operation returns an
    integer or fails on an assertion of its own. *)
Class Engine : Type := {
  add : t -> t -> option t;
  sub : t -> t -> option t;
  mul : t -> t -> option t;
  div : t -> t -> option t;
  mod_ : t -> t -> option t;
  pow : t -> t -> option t;
  maskn : t -> Z -> option t;
  toTwos : t -> Z -> option t;
  fromTwos : t -> Z -> option t
}.

(** An engine on exact integers, used to run the examples: division
    truncates, the remainder has the sign of the dividend, and the exponent
    of [pow] is read by its magnitude. A zero divisor, a negative width and
    a negative value to mask fail; the two's-complement conversions are
    given on the values that fit the width, and this instance has no result
    on the others. *)
#[global] Instance exact : Engine := {
  add x y := Some (x + y)%Z;
  sub x y := Some (x - y)%Z;
  mul x y := Some (x * y)%Z;
  div x y := if (y =? 0)%Z then None else Some (Z.quot x y);
  mod_ x y := if (y =? 0)%Z then None else Some (Z.rem x y);
  pow x y := Some (Z.pow x (Z.abs y));
  maskn x bits :=
    if (bits <? 0)%Z || (x <? 0)%Z then None
    else Some (Z.land x (Z.ones bits));
  toTwos x width :=
    if (width <? 0)%Z || (2 ^ width <=? Z.abs x)%Z then None
    else if (x <? 0)%Z
         then Some (Z.lxor (Z.abs x) (Z.ones width) + 1)%Z
         else Some x;
  fromTwos x width :=
    if (width <=? 0)%Z || (x <? 0)%Z || (2 ^ width <=? x)%Z then None
    else if Z.testbit x (width - 1)
         then Some (- (Z.lxor x (Z.ones width) + 1))%Z
         else Some x
}.

End BN.

(** An engine result, with an assertion failure turned into an error. *)
Definition engine {A : Type} (o : option A) : result A :=
  match o with
  | Some a => Ok a
  | None => Err EngineFault
  end.

(** ** Helpers of [@ethersproject/bytes] *)

(** Modelled from the spec: the hex-string validator [isHexString] of the
    bytes utilities, absent from the sources: the prefix [0x] followed by
    hexadecimal digits in either case, possibly none, and no sign. *)
Definition isHexString (s : string) : bool :=
  match s with
  | String a (String b r) =>
      Ascii.eqb a "0" && Ascii.eqb b "x" && JS.forallb JS.is_hex_i r
  | _ => false
  end.

Definition hex_char (n : N) : ascii :=
  if (n <? 10)%N then ascii_of_N (48 + n) else ascii_of_N (87 + n).

Fixpoint hex_of_bytes (bytes : list Byte.byte) : string :=
  match bytes with
  | [] => EmptyString
  | b :: r =>
      let n := Byte.to_N b in
      String (hex_char (n / 16)) (String (hex_char (n mod 16)) (hex_of_bytes r))
  end.

(** Modelled from the spec: the byte-to-hex conversion [hexlify] of the
    bytes utilities, absent from the sources: [0x], then two lowercase hex
    digits per byte, no sign. *)
Definition hexlify (bytes : list Byte.byte) : string :=
  "0x" ++ hex_of_bytes bytes.

(** ** The two patterns of [BigNumber.from] *)

(** [0x[0-9a-f]+] under the [i] flag, tried at the start of [s]: one digit
    is enough for the match to exist. *)
Definition hex_literal_here (s : string) : bool :=
  match s with
  | String a (String b (String c _)) =>
      Ascii.eqb a "0" && JS.is_x_i b && JS.is_hex_i c
  | _ => false
  end.

(** [-?0x[0-9a-f]+] under the [i] flag, tried at the start of [s]. *)
Definition hex_pattern_here (s : string) : bool :=
  match s with
  | String a r => (Ascii.eqb a "-" && hex_literal_here r) || hex_literal_here s
  | EmptyString => false
  end.

(** [value.match(/-?0x[0-9a-f]+/i)] is truthy: the pattern has no anchor, so
    the match is searched from every position. *)
Fixpoint matches_hex (s : string) : bool :=
  hex_pattern_here s ||
  match s with
  | EmptyString => false
  | String _ r => matches_hex r
  end.

(** [[0-9]+$] tried at the start of [s]. *)
Definition all_digits (s : string) : bool :=
  negb (String.eqb s "") && JS.forallb JS.is_digit s.

(** [value.match(/^-?[0-9]+$/)] is truthy. *)
Definition matches_decimal (s : string) : bool :=
  match s with
  | String a r => if Ascii.eqb a "-" then all_digits r else all_digits s
  | EmptyString => false
  end.

(** ** [toHex]: normalise the hex string *)

(** The loop "trim to smallest even-length string"; each turn removes two
    characters, so the length of the string bounds the number of turns. *)
Fixpoint trim_loop (fuel : nat) (value : string) : string :=
  match fuel with
  | O => value
  | S fuel' =>
      if Nat.ltb 4 (String.length value) &&
         String.eqb (JS.substring_upto 4 value) "0x00"
      then trim_loop fuel' ("0x" ++ JS.substring_from 4 value)
      else value
  end.

(** The part of [toHex] after the sign has been dealt with. *)
Definition toHex_unsigned (value : string) : string :=
  (* Add a "0x" prefix if missing *)
  let value :=
    if String.eqb (JS.substring_upto 2 value) "0x" then value
    else "0x" ++ value in
  (* Normalize zero *)
  if String.eqb value "0x" then "0x00"
  else
    (* Make the string even length *)
    let value :=
      if Nat.odd (String.length value)
      then "0x0" ++ JS.substring_from 2 value
      else value in
    (* Trim to smallest even-length string *)
    trim_loop (String.length value) value.

(** [toHex(value)] on a string. The recursive call is on the string without
    its sign. *)
Fixpoint toHex (value : string) : result string :=
  match value with
  | EmptyString => Ok (toHex_unsigned value)
  | String a rest =>
      if Ascii.eqb a "-" then
        (* Cannot have multiple negative signs *)
        if JS.first_is "-" rest
        then throwArgumentError "invalid hex" "value" (VString rest)
        else
          let* v := toHex rest in
          (* Do not allow "-0x00" *)
          if String.eqb v "0x00" then Ok v
          else Ok ("-" ++ v)
      else Ok (toHex_unsigned value)
  end.

(** [toHex(value)] on an engine integer: "call on the hex string". *)
Definition toHex_BN (x : BN.t) : result string :=
  toHex (BN.toString16 x).

(** ** [BigNumber.from] *)

Definition MAX_SAFE : Z := 0x1fffffffffffff.

Definition toHexString (b : BigNumber) : string := _hex b.

(** [BigNumber.from(value)] when [typeof(value) === "string"]. *)
Definition from_string (s : string) : result BigNumber :=
  if matches_hex s then
    let* h := toHex s in Ok (mkBigNumber h)
  else if matches_decimal s then
    let* x := engine (BN.of_dec s) in
    let* h := toHex_BN x in Ok (mkBigNumber h)
  else throwArgumentError "invalid BigNumber string" "value" (VString s).

(** The end of [BigNumber.from(value)], from [if (value.toHexString)]:
    [returned] is what the method returns, when there is one; it replaces
    [value], also in the error that follows when it is not a string. *)
Definition from_toHexString (v : value) (returned : option value)
  : result BigNumber :=
  match returned with
  | Some (VString s) => from_string s
  | Some r => throwArgumentError "invalid BigNumber value" "value" r
  | None => throwArgumentError "invalid BigNumber value" "value" v
  end.

(** [BigNumber.from(value)]. The recursive calls of the source are all made
    on a string. *)
Definition from (v : value) : result BigNumber :=
  match v with
  | VBigNumber b => Ok b
  | VString s => from_string s
  | VNumber n =>
      match n with
      | NumFrac =>
          (* value % 1 is not zero *)
          throwFault "underflow" "BigNumber.from" (Some v)
      | NumNaN =>
          (* NaN % 1 is NaN, every comparison is false, String(NaN) *)
          from_string "NaN"
      | NumInf _ =>
          (* Infinity % 1 is NaN, and one of the two comparisons holds *)
          throwFault "overflow" "BigNumber.from" (Some v)
      | NumInt z =>
          if (z >=? MAX_SAFE)%Z || (z <=? - MAX_SAFE)%Z
          then throwFault "overflow" "BigNumber.from" (Some v)
          else from_string (BN.toString10 z)
      end
  | VBigInt z => from_string (BN.toString10 z)
  | VBytes bytes | VBytesObject bytes _ =>
      (* isBytes(value) is tested before value._hex *)
      from_string (hexlify bytes)
  | VObject o =>
      match obj_hex o with
      | Some h =>
          if negb (String.eqb h "") && isHexString h
          then from_string h
          else from_toHexString v (obj_toHexString o)
      | None => from_toHexString v (obj_toHexString o)
      end
  | VNull => Err TypeError
  end.

(** [BigNumber.isBigNumber(value)] *)
Definition isBigNumber (v : value) : bool :=
  match v with
  | VBigNumber _ => true
  | VObject o | VBytesObject _ o => obj_isBigNumber o
  | _ => false
  end.

(** [isBigNumberish(value)] *)
Definition isBigNumberish (v : value) : bool :=
  match v with
  | VNull => false
  | _ =>
      isBigNumber v ||
      match v with VNumber (NumInt _) => true | _ => false end ||
      match v with VString s => matches_decimal s | _ => false end ||
      match v with VString s => isHexString s | _ => false end ||
      match v with VBigInt _ => true | _ => false end ||
      match v with VBytes _ | VBytesObject _ _ => true | _ => false end
  end.

(** ** Decoding and the operations *)

(** [toBigNumber(value)] *)
Definition toBigNumber (x : BN.t) : result BigNumber :=
  let* h := toHex_BN x in from (VString h).

(** [toBN(value)] *)
Definition toBN (v : value) : result BN.t :=
  let* b := from v in
  let hex := toHexString b in
  if JS.first_is "-" hex
  then engine (BN.of_hex ("-" ++ JS.substring_from 3 hex))
  else engine (BN.of_hex (JS.substring_from 2 hex)).

Section Operations.

Context {E : BN.Engine}.

Definition binary (op : BN.t -> BN.t -> option BN.t)
           (this : BigNumber) (other : value) : result BigNumber :=
  let* x := toBN (VBigNumber this) in
  let* y := toBN other in
  let* r := engine (op x y) in
  toBigNumber r.

Definition unary (op : BN.t -> Z -> option BN.t)
           (this : BigNumber) (n : Z) : result BigNumber :=
  let* x := toBN (VBigNumber this) in
  let* r := engine (op x n) in
  toBigNumber r.

Definition fromTwos (this : BigNumber) (n : Z) := unary BN.fromTwos this n.
Definition toTwos (this : BigNumber) (n : Z) := unary BN.toTwos this n.
Definition maskn (this : BigNumber) (n : Z) := unary BN.maskn this n.

Definition add (this : BigNumber) (other : value) := binary BN.add this other.
Definition sub (this : BigNumber) (other : value) := binary BN.sub this other.
Definition mul (this : BigNumber) (other : value) := binary BN.mul this other.
Definition mod_ (this : BigNumber) (other : value) := binary BN.mod_ this other.
Definition pow (this : BigNumber) (other : value) := binary BN.pow this other.

Definition isZero (this : BigNumber) : result bool :=
  let* x := toBN (VBigNumber this) in Ok (BN.isZero x).

Definition div (this : BigNumber) (other : value) : result BigNumber :=
  let* o := from other in
  let* z := isZero o in
  if z then throwFault "division by zero" "div" None
  else binary BN.div this other.

End Operations.

Definition abs (this : BigNumber) : result BigNumber :=
  if JS.first_is "-" (_hex this)
  then from (VString (JS.substring_from 1 (_hex this)))
  else Ok this.

Definition compare (op : BN.t -> BN.t -> bool)
           (this : BigNumber) (other : value) : result bool :=
  let* x := toBN (VBigNumber this) in
  let* y := toBN other in
  Ok (op x y).

Definition eq := compare BN.eq.
Definition lt := compare BN.lt.
Definition lte := compare BN.lte.
Definition gt := compare BN.gt.
Definition gte := compare BN.gte.

(** [toString()]: any argument is refused. *)
Definition toString (arguments : list value) (this : BigNumber)
  : result string :=
  match arguments with
  | [] => let* x := toBN (VBigNumber this) in Ok (BN.toString10 x)
  | _ =>
      Err (UnexpectedArgument "bigNumber.toString does not accept parameters")
  end.

(** [toNumber()]. [narrow] is the engine's own [toNumber], which fails when
    the integer does not fit a native number. Whatever is thrown inside the
    [try] is caught, and the fault is raised with [this.toString()], which
    is evaluated first. *)
Definition toNumber (narrow : BN.t -> option number) (this : BigNumber)
  : result number :=
  match (let* x := toBN (VBigNumber this) in engine (narrow x)) with
  | Ok n => Ok n
  | Err _ =>
      let* s := toString [] this in
      throwFault "overflow" "toNumber" (Some (VString s))
  end.

(** ** Auxiliary definitions for the statements and proofs *)

(** The digits [toHex] works on: the string without its [0x] prefix. *)
Definition body (s : string) : string :=
  if String.eqb (JS.substring_upto 2 s) "0x" then JS.substring_from 2 s else s.

(** One [0] in front of an odd number of digits. *)
Definition even_pad (d : string) : string :=
  if Nat.odd (String.length d) then String "0" d else d.

(** Leading [00] pairs removed while something remains after them. *)
Fixpoint strip_pairs (d : string) : string :=
  match d with
  | String a (String b rest) =>
      if Ascii.eqb a "0" && Ascii.eqb b "0" && negb (String.eqb rest "")
      then strip_pairs rest
      else d
  | _ => d
  end.

(** The digits of a canonical string: at least one, all in the class [p],
    an even number of them, and no leading [00] pair unless the digits are
    exactly [00]. *)
Definition canonical_digits (p : ascii -> bool) (d : string) : bool :=
  negb (String.eqb d "") && JS.forallb p d && Nat.even (String.length d) &&
  (Nat.eqb (String.length d) 2 || negb (String.eqb (JS.substring_upto 2 d) "00")).

Definition canonical_unsigned (p : ascii -> bool) (h : string) : bool :=
  String.eqb (JS.substring_upto 2 h) "0x" &&
  canonical_digits p (JS.substring_from 2 h).

(** The canonical form with digits in the class [p]: an optional minus sign,
    [0x], canonical digits, and no minus sign before [0x00]. *)
Definition canonical_with (p : ascii -> bool) (h : string) : bool :=
  if JS.first_is "-" h
  then canonical_unsigned p (JS.substring_from 1 h) &&
       negb (String.eqb (JS.substring_from 1 h) "0x00")
  else canonical_unsigned p h.

(** The canonical form of the specification: lowercase digits only. *)
Definition canonical (h : string) : bool := canonical_with JS.is_lower_hex h.

(** The digits of a signed hex text: without the sign and the prefix. *)
Definition digits_of (s : string) : string :=
  body (if JS.first_is "-" s then JS.substring_from 1 s else s).

(** The integer [toBN] reads from a stored hex string. *)
Definition decode (hex : string) : option BN.t :=
  if JS.first_is "-" hex
  then BN.of_hex ("-" ++ JS.substring_from 3 hex)
  else BN.of_hex (JS.substring_from 2 hex).

(** The value of a string of hexadecimal digits. *)
Definition digit_value (d : string) : option Z :=
  option_map Z.of_hex_uint (BN.hex_uint_of_string d).

Definition signed (negative : bool) (o : option Z) : option Z :=
  if negative then option_map Z.opp o else o.

(** [0x[p]+$] tried at the start of [s], the prefix in lowercase. *)
Definition hex_literal (p : ascii -> bool) (s : string) : bool :=
  match s with
  | String a (String b d) =>
      Ascii.eqb a "0" && Ascii.eqb b "x" &&
      negb (String.eqb d "") && JS.forallb p d
  | _ => false
  end.

(** The whole string has the shape [-?0x[p]+]. *)
Definition whole_hex (p : ascii -> bool) (s : string) : bool :=
  match s with
  | String a r => if Ascii.eqb a "-" then hex_literal p r else hex_literal p s
  | EmptyString => false
  end.

(** No letter [x] in either case. *)
Definition no_x (s : string) : bool :=
  JS.forallb (fun c => negb (JS.is_x_i c)) s.

(** Leading zero digits removed, other than a single [0]. *)
Fixpoint strip_zeros (d : string) : string :=
  match d with
  | String a rest =>
      if Ascii.eqb a "0" && negb (String.eqb rest "")
      then strip_zeros rest
      else d
  | EmptyString => d
  end.

(** A decimal string with its superfluous leading zeros stripped, the sign
    kept. *)
Definition strip_leading_zeros (d : string) : string :=
  match d with
  | String a r =>
      if Ascii.eqb a "-" then String "-" (strip_zeros r) else strip_zeros d
  | EmptyString => d
  end.

(** The same, and no sign before zero. *)
Definition strip_leading_zeros_unsigned_zero (d : string) : string :=
  if String.eqb (strip_leading_zeros d) "-0" then "0"
  else strip_leading_zeros d.

(** A string the dispatcher reads as a whole: a decimal string, or a hex
    literal in lowercase that is the whole string. *)
Definition clean_string (s : string) : bool :=
  matches_decimal s || whole_hex JS.is_lower_hex s.

(** The string of an object that reaches the string dispatcher, when one
    does: the [_hex] field when it is a valid hex string, and otherwise the
    string that [toHexString()] returns. *)
Definition dispatched (o : object) : option string :=
  let returned :=
    match obj_toHexString o with
    | Some (VString s) => Some s
    | _ => None
    end in
  match obj_hex o with
  | Some h => if negb (String.eqb h "") && isHexString h then Some h
              else returned
  | None => returned
  end.

(** An input whose text, where one reaches the dispatcher, is such a string;
    an instance is one whose stored string is canonical. *)
Definition clean (v : value) : bool :=
  match v with
  | VBigNumber b => canonical (toHexString b)
  | VString s => clean_string s
  | VObject o =>
      match dispatched o with Some s => clean_string s | None => true end
  | _ => true
  end.

(** The instances that exist: the constructor is guarded, so an instance is
    what [BigNumber.from] returned, on an input whose instance, if it is
    one, was itself constructed. *)
Inductive constructed : BigNumber -> Prop :=
| constructed_by_from (v : value) (b : BigNumber) :
    (forall b', v = VBigNumber b' -> constructed b') ->
    from v = Ok b ->
    constructed b.

Definition division_by_zero : error :=
  NumericFault "division by zero" "div" None.

Definition overflow (v : value) : error :=
  NumericFault "overflow" "BigNumber.from" (Some v).

(** The stored string of a construction, when it succeeds. *)
Definition hexOf (r : result BigNumber) : result string :=
  let* b := r in Ok (toHexString b).

(** The values that [isBigNumberish] lets through and [BigNumber.from]
    refuses, objects apart: the bare prefix, a number outside the safe
    range, and an empty byte sequence. *)
Definition approved_but_refused (v : value) : bool :=
  match v with
  | VString s => String.eqb s "0x"
  | VNumber (NumInt z) => (z >=? MAX_SAFE)%Z || (z <=? - MAX_SAFE)%Z
  | VBytes bytes | VBytesObject bytes _ =>
      match bytes with [] => true | _ => false end
  | _ => false
  end.

(** An object that is neither an instance nor a byte sequence. *)
Definition is_object (v : value) : bool :=
  match v with
  | VObject _ => true
  | _ => false
  end.

(** * Properties of the embedding *)

(** ** Strings *)

Lemma substring_all (s : string) :
  String.substring 0 (String.length s) s = s.
Proof.
  induction s as [|a s IH]; simpl; [reflexivity | now rewrite IH].
Qed.

Lemma substring_from_0 (s : string) : JS.substring_from 0 s = s.
Proof.
  unfold JS.substring_from. rewrite Nat.sub_0_r. apply substring_all.
Qed.

Lemma substring_from_1 (a : ascii) (s : string) :
  JS.substring_from 1 (String a s) = s.
Proof.
  unfold JS.substring_from; simpl. rewrite Nat.sub_0_r. apply substring_all.
Qed.

Lemma substring_from_2 (a b : ascii) (s : string) :
  JS.substring_from 2 (String a (String b s)) = s.
Proof.
  unfold JS.substring_from; simpl. rewrite Nat.sub_0_r. apply substring_all.
Qed.

Lemma substring_from_3 (a b c : ascii) (s : string) :
  JS.substring_from 3 (String a (String b (String c s))) = s.
Proof.
  unfold JS.substring_from; simpl. rewrite Nat.sub_0_r. apply substring_all.
Qed.

Lemma substring_from_4 (a b c d : ascii) (s : string) :
  JS.substring_from 4 (String a (String b (String c (String d s)))) = s.
Proof.
  unfold JS.substring_from; simpl. rewrite Nat.sub_0_r. apply substring_all.
Qed.

Lemma string_pair_ind (P : string -> Prop) :
  P "" ->
  (forall a, P (String a "")) ->
  (forall a b r, P r -> P (String a (String b r))) ->
  forall s, P s.
Proof.
  intros H0 H1 H2.
  assert (forall s, P s /\ forall a, P (String a s)) as H.
  { induction s as [|b s [IHs IHs']]; split; auto. }
  intro s; apply H.
Qed.

Lemma eqb_empty_length (s : string) :
  String.eqb s "" = Nat.eqb (String.length s) 0.
Proof. destruct s; reflexivity. Qed.

Lemma prefix_0x_inv (s : string) :
  String.eqb (JS.substring_upto 2 s) "0x" = true ->
  s = String "0" (String "x" (JS.substring_from 2 s)).
Proof.
  unfold JS.substring_upto.
  destruct s as [|a [|b r]]; simpl; try discriminate.
  - destruct (Ascii.eqb a "0"); discriminate.
  - rewrite substring_from_2.
    destruct (Ascii.eqb_spec a "0"); [|discriminate].
    destruct (Ascii.eqb_spec b "x"); [|discriminate].
    now subst.
Qed.

(** ** The trimming loop *)

Lemma strip_pairs_length (d : string) :
  String.length (strip_pairs d) <= String.length d.
Proof.
  induction d as [| a | a b r IH] using string_pair_ind; simpl; auto.
  destruct (_ && _); simpl; lia.
Qed.

Lemma trim_loop_spec (fuel : nat) :
  forall d, String.length d <= fuel ->
  trim_loop fuel ("0x" ++ d) = "0x" ++ strip_pairs d.
Proof.
  induction fuel as [|fuel IH]; intros d Hd.
  - destruct d; [reflexivity | simpl in Hd; lia].
  - destruct d as [|a [|b [|c r]]]; try reflexivity.
    + cbn [trim_loop]. simpl. now rewrite !andb_false_r.
    + cbn [trim_loop strip_pairs].
      change ("0x" ++ String a (String b (String c r)))
        with (String "0" (String "x" (String a (String b (String c r))))).
      rewrite substring_from_4.
      replace (Nat.ltb 4 _ && _)
        with (Ascii.eqb a "0" && Ascii.eqb b "0" && negb (String.eqb (String c r) "")).
      * destruct (_ && _); [|reflexivity].
        apply IH. simpl in Hd |- *. lia.
      * simpl. destruct (Ascii.eqb a "0"), (Ascii.eqb b "0"); reflexivity.
Qed.

Lemma toHex_unsigned_spec (s : string) :
  toHex_unsigned s =
  if String.eqb (body s) "" then "0x00"
  else "0x" ++ strip_pairs (even_pad (body s)).
Proof.
  assert (forall d,
    (if String.eqb ("0x" ++ d) "0x" then "0x00"
     else
       let value :=
         if Nat.odd (String.length ("0x" ++ d))
         then "0x0" ++ JS.substring_from 2 ("0x" ++ d)
         else "0x" ++ d in
       trim_loop (String.length value) value) =
    if String.eqb d "" then "0x00" else "0x" ++ strip_pairs (even_pad d)) as H.
  { intro d.
    change ("0x" ++ d) with (String "0" (String "x" d)).
    rewrite substring_from_2.
    change (String.eqb (String "0" (String "x" d)) "0x") with (String.eqb d "").
    destruct (String.eqb d ""); [reflexivity|].
    change (Nat.odd (String.length (String "0" (String "x" d))))
      with (Nat.odd (String.length d)).
    unfold even_pad. cbv zeta.
    destruct (Nat.odd (String.length d)).
    - change ("0x0" ++ d) with ("0x" ++ String "0" d).
      apply trim_loop_spec. simpl. lia.
    - change (String "0" (String "x" d)) with ("0x" ++ d).
      apply trim_loop_spec. simpl. lia. }
  unfold toHex_unsigned, body.
  destruct (String.eqb (JS.substring_upto 2 s) "0x") eqn:Hp.
  - pose proof (prefix_0x_inv s Hp) as Hs.
    set (d := JS.substring_from 2 s) in *.
    specialize (H d). cbv zeta in H.
    change ("0x" ++ d) with (String "0" (String "x" d)) in H.
    rewrite substring_from_2, <- Hs in H. exact H.
  - apply H.
Qed.

(** ** The output of the normaliser is canonical and a fixed point *)

Lemma canonical_unsigned_prefixed (p : ascii -> bool) (d : string) :
  canonical_unsigned p ("0x" ++ d) = canonical_digits p d.
Proof.
  unfold canonical_unsigned.
  change ("0x" ++ d) with (String "0" (String "x" d)).
  rewrite substring_from_2.
  unfold JS.substring_upto. simpl. now destruct d.
Qed.

Lemma canonical_unsigned_inv (p : ascii -> bool) (h : string) :
  canonical_unsigned p h = true ->
  exists d, h = "0x" ++ d /\ canonical_digits p d = true.
Proof.
  unfold canonical_unsigned. intro H.
  apply andb_prop in H as [Hp Hd].
  exists (JS.substring_from 2 h). split; [|exact Hd].
  now apply prefix_0x_inv.
Qed.

Lemma strip_pairs_canonical (p : ascii -> bool) (d : string) :
  String.eqb d "" = false ->
  Nat.even (String.length d) = true ->
  JS.forallb p d = true ->
  canonical_digits p (strip_pairs d) = true.
Proof.
  induction d as [| a | a b r IH] using string_pair_ind;
    intros Hne Hev Hp; try discriminate.
  cbn [strip_pairs].
  destruct (Ascii.eqb a "0" && Ascii.eqb b "0" && negb (String.eqb r "")) eqn:Hc.
  - apply andb_prop in Hc as [_ Hr]. apply negb_true_iff in Hr.
    simpl in Hp. apply andb_prop in Hp as [_ Hp]. apply andb_prop in Hp as [_ Hp].
    apply IH; auto.
  - unfold canonical_digits. rewrite Hne, Hp, Hev. simpl.
    destruct r as [|c r]; [reflexivity|].
    simpl in Hc. rewrite andb_true_r in Hc.
    unfold JS.substring_upto. simpl.
    destruct (Ascii.eqb a "0"), (Ascii.eqb b "0"); simpl in *;
      try discriminate; reflexivity.
Qed.

Lemma even_pad_even (d : string) :
  Nat.even (String.length (even_pad d)) = true.
Proof.
  unfold even_pad. destruct (Nat.odd (String.length d)) eqn:Ho.
  - cbn [String.length]. rewrite Nat.even_succ. exact Ho.
  - rewrite <- Nat.negb_odd, Ho. reflexivity.
Qed.

Lemma even_pad_nonempty (d : string) :
  String.eqb d "" = false -> String.eqb (even_pad d) "" = false.
Proof.
  unfold even_pad. destruct (Nat.odd _); auto.
Qed.

Lemma even_pad_forallb (p : ascii -> bool) (d : string) :
  p "0"%char = true -> JS.forallb p d = true ->
  JS.forallb p (even_pad d) = true.
Proof.
  intros H0 Hd. unfold even_pad. destruct (Nat.odd _); auto.
  simpl. now rewrite H0, Hd.
Qed.

Lemma canonical_digits_stable (p : ascii -> bool) (d : string) :
  canonical_digits p d = true -> strip_pairs (even_pad d) = d.
Proof.
  unfold canonical_digits. intro H.
  apply andb_prop in H as [H Hmin]. apply andb_prop in H as [H Hev].
  unfold even_pad. rewrite <- Nat.negb_even, Hev. simpl.
  destruct d as [|a [|b [|c r]]]; try reflexivity.
  all: cbn [strip_pairs]; unfold JS.substring_upto in Hmin; simpl in Hmin;
    destruct (Ascii.eqb a "0"), (Ascii.eqb b "0"); simpl in *;
    try discriminate; reflexivity.
Qed.

Lemma canonical_digits_nonempty (p : ascii -> bool) (d : string) :
  canonical_digits p d = true -> String.eqb d "" = false.
Proof.
  unfold canonical_digits. destruct (String.eqb d ""); [discriminate | auto].
Qed.

Lemma canonical_digits_weaken (p q : ascii -> bool) (d : string) :
  (forall c, p c = true -> q c = true) ->
  canonical_digits p d = true -> canonical_digits q d = true.
Proof.
  intros Hpq. unfold canonical_digits. intro H.
  apply andb_prop in H as [H Hmin]. apply andb_prop in H as [H Hev].
  apply andb_prop in H as [Hne Hp].
  rewrite Hne, Hev, Hmin, !andb_true_r. simpl.
  clear - Hpq Hp. induction d as [|a d IH]; [reflexivity|].
  simpl in *. apply andb_prop in Hp as [Ha Hd].
  now rewrite (Hpq _ Ha), IH.
Qed.

Lemma body_prefixed (d : string) : body ("0x" ++ d) = d.
Proof.
  unfold body. change ("0x" ++ d) with (String "0" (String "x" d)).
  rewrite substring_from_2. unfold JS.substring_upto. simpl.
  now destruct d.
Qed.

Lemma toHex_unsigned_canonical (p : ascii -> bool) (s : string) :
  p "0"%char = true ->
  JS.forallb p (body s) = true ->
  canonical_unsigned p (toHex_unsigned s) = true.
Proof.
  intros H0 Hp. rewrite toHex_unsigned_spec.
  destruct (String.eqb (body s) "") eqn:Hne.
  - change "0x00" with ("0x" ++ "00"). rewrite canonical_unsigned_prefixed.
    unfold canonical_digits. simpl. now rewrite H0.
  - rewrite canonical_unsigned_prefixed.
    apply strip_pairs_canonical.
    + now apply even_pad_nonempty.
    + apply even_pad_even.
    + now apply even_pad_forallb.
Qed.

Lemma forallb_any (s : string) : JS.forallb (fun _ => true) s = true.
Proof. induction s; simpl; auto. Qed.

Lemma canonical_unsigned_fixed (p : ascii -> bool) (h : string) :
  canonical_unsigned p h = true -> toHex_unsigned h = h.
Proof.
  intro H. apply canonical_unsigned_inv in H as (d & -> & Hd).
  rewrite toHex_unsigned_spec, body_prefixed.
  rewrite (canonical_digits_nonempty _ _ Hd).
  now rewrite (canonical_digits_stable _ _ Hd).
Qed.

Lemma canonical_unsigned_unsigned (p : ascii -> bool) (h : string) :
  canonical_unsigned p h = true -> JS.first_is "-" h = false.
Proof.
  intro H. apply canonical_unsigned_inv in H as (d & -> & _). reflexivity.
Qed.

Lemma toHex_unsigned_shape (s : string) :
  canonical_unsigned (fun _ => true) (toHex_unsigned s) = true.
Proof.
  apply toHex_unsigned_canonical; [reflexivity | apply forallb_any].
Qed.

(** The two cases of [toHex], as equations. *)

Lemma toHex_nonneg (s : string) :
  JS.first_is "-" s = false -> toHex s = Ok (toHex_unsigned s).
Proof.
  destruct s as [|a r]; [reflexivity|].
  simpl. intros ->. reflexivity.
Qed.

Lemma toHex_neg (r : string) :
  JS.first_is "-" r = false ->
  toHex (String "-" r) =
  Ok (if String.eqb (toHex_unsigned r) "0x00" then "0x00"
      else String "-" (toHex_unsigned r)).
Proof.
  intro Hr. cbn [toHex]. rewrite Ascii.eqb_refl, Hr.
  rewrite (toHex_nonneg _ Hr). cbn [bind].
  destruct (String.eqb_spec (toHex_unsigned r) "0x00") as [->|]; reflexivity.
Qed.

Lemma toHex_double_sign (r : string) :
  JS.first_is "-" r = true ->
  toHex (String "-" r) = Err (InvalidArgument "invalid hex" "value" (VString r)).
Proof.
  intro Hr. cbn [toHex]. now rewrite Ascii.eqb_refl, Hr.
Qed.

Lemma toHex_fails_or_returns (s : string) :
  (exists h, toHex s = Ok h) \/
  (exists v, toHex s = Err (InvalidArgument "invalid hex" "value" v)).
Proof.
  destruct s as [|a r]; [left; eexists; reflexivity|].
  destruct (Ascii.eqb_spec a "-") as [->|Ha].
  - destruct (JS.first_is "-" r) eqn:Hr.
    + right. rewrite toHex_double_sign by assumption. eauto.
    + left. rewrite toHex_neg by assumption. eauto.
  - left. rewrite toHex_nonneg by (simpl; now apply Ascii.eqb_neq). eauto.
Qed.

Lemma toHex_fixed (s h : string) : toHex s = Ok h -> toHex h = Ok h.
Proof.
  assert (forall t, toHex (toHex_unsigned t) = Ok (toHex_unsigned t)) as Hu.
  { intro t. pose proof (toHex_unsigned_shape t) as Hc.
    rewrite toHex_nonneg by (eapply canonical_unsigned_unsigned; eauto).
    now rewrite (canonical_unsigned_fixed _ _ Hc). }
  destruct s as [|a r].
  - intros [= <-]. apply Hu.
  - destruct (Ascii.eqb_spec a "-") as [->|Ha].
    + destruct (JS.first_is "-" r) eqn:Hr.
      * rewrite toHex_double_sign by assumption. discriminate.
      * rewrite toHex_neg by assumption.
        destruct (String.eqb (toHex_unsigned r) "0x00") eqn:Hz;
          intros [= <-]; [reflexivity|].
        pose proof (toHex_unsigned_shape r) as Hc.
        rewrite toHex_neg by (eapply canonical_unsigned_unsigned; eauto).
        now rewrite (canonical_unsigned_fixed _ _ Hc), Hz.
    + rewrite toHex_nonneg.
      * intros [= <-]. apply Hu.
      * simpl. now apply Ascii.eqb_neq.
Qed.

Lemma toHex_canonical_with (p : ascii -> bool) (s h : string) :
  p "0"%char = true ->
  JS.forallb p (digits_of s) = true ->
  toHex s = Ok h ->
  canonical_with p h = true.
Proof.
  intros H0 Hp. unfold digits_of in Hp.
  destruct s as [|a r].
  - intros [= <-]. now apply toHex_unsigned_canonical.
  - destruct (Ascii.eqb_spec a "-") as [->|Ha].
    + change (JS.first_is "-" (String "-" r)) with true in Hp.
      cbv iota in Hp. rewrite substring_from_1 in Hp.
      destruct (JS.first_is "-" r) eqn:Hr.
      * rewrite toHex_double_sign by assumption. discriminate.
      * rewrite toHex_neg by assumption.
        pose proof (toHex_unsigned_canonical p r H0 Hp) as Hc.
        pose proof (canonical_unsigned_unsigned _ _ Hc) as Hn.
        destruct (String.eqb (toHex_unsigned r) "0x00") eqn:Hz; intros [= <-].
        -- apply String.eqb_eq in Hz. rewrite Hz in Hc.
           unfold canonical_with. exact Hc.
        -- unfold canonical_with. cbn [JS.first_is]. rewrite Ascii.eqb_refl.
           rewrite substring_from_1, Hc, Hz. reflexivity.
    + assert (JS.first_is "-" (String a r) = false) as Hn
        by (simpl; now apply Ascii.eqb_neq).
      rewrite Hn in Hp. rewrite toHex_nonneg by assumption.
      intros [= <-].
      pose proof (toHex_unsigned_canonical p _ H0 Hp) as Hc.
      unfold canonical_with.
      now rewrite (canonical_unsigned_unsigned _ _ Hc).
Qed.

(** ** Characters *)

Ltac each_ascii c :=
  destruct c as [[|] [|] [|] [|] [|] [|] [|] [|]].

Lemma lower_hex_is_hex (c : ascii) :
  JS.is_lower_hex c = true -> JS.is_hex_i c = true.
Proof. unfold JS.is_hex_i. now intros ->. Qed.

Lemma digit_is_lower_hex (c : ascii) :
  JS.is_digit c = true -> JS.is_lower_hex c = true.
Proof. unfold JS.is_lower_hex. now intros ->. Qed.

Lemma lower_fixed (c : ascii) : JS.is_lower_hex c = true -> BN.lower c = c.
Proof.
  each_ascii c; intro H; vm_compute in H; try discriminate; reflexivity.
Qed.

Lemma hex_char_parses (c : ascii) (u : Hexadecimal.uint) :
  JS.is_hex_i c = true ->
  exists u', HexadecimalString.uint_of_char (BN.lower c) (Some u) = Some u'.
Proof.
  each_ascii c; intro H; vm_compute in H; try discriminate;
    eexists; reflexivity.
Qed.

Lemma hex_not_sign (c : ascii) : JS.is_hex_i c = true -> Ascii.eqb c "-" = false.
Proof.
  each_ascii c; intro H; vm_compute in H; try discriminate; reflexivity.
Qed.

Lemma hex_not_x (c : ascii) : JS.is_hex_i c = true -> Ascii.eqb c "x" = false.
Proof.
  each_ascii c; intro H; vm_compute in H; try discriminate; reflexivity.
Qed.

Lemma forallb_weaken (p q : ascii -> bool) (s : string) :
  (forall c, p c = true -> q c = true) ->
  JS.forallb p s = true -> JS.forallb q s = true.
Proof.
  intros Hpq. induction s as [|a s IH]; [reflexivity|].
  simpl. intro H. apply andb_prop in H as [Ha Hs].
  now rewrite (Hpq _ Ha), IH.
Qed.

Lemma hex_first_not_sign (d : string) :
  JS.forallb JS.is_hex_i d = true -> JS.first_is "-" d = false.
Proof.
  destruct d as [|a d]; [reflexivity|].
  simpl. intro H. apply andb_prop in H as [Ha _]. now apply hex_not_sign.
Qed.

Lemma hex_body (d : string) :
  JS.forallb JS.is_hex_i d = true -> body d = d.
Proof.
  unfold body, JS.substring_upto.
  destruct d as [|a [|b r]]; try reflexivity.
  - simpl. destruct (Ascii.eqb a "0"); reflexivity.
  - simpl. intro H. apply andb_prop in H as [_ H].
    apply andb_prop in H as [Hb _]. apply hex_not_x in Hb.
    rewrite Hb. destruct (Ascii.eqb a "0"); reflexivity.
Qed.

(** ** The value read back from a normalised string *)

Lemma digit_value_zero (d : string) :
  digit_value (String "0" d) = digit_value d.
Proof.
  unfold digit_value. cbn [BN.hex_uint_of_string].
  change (BN.lower "0") with "0"%char.
  destruct (BN.hex_uint_of_string d); reflexivity.
Qed.

Lemma digit_value_even_pad (d : string) :
  digit_value (even_pad d) = digit_value d.
Proof.
  unfold even_pad. destruct (Nat.odd _); [apply digit_value_zero | reflexivity].
Qed.

Lemma digit_value_strip_pairs (d : string) :
  digit_value (strip_pairs d) = digit_value d.
Proof.
  induction d as [| a | a b r IH] using string_pair_ind; try reflexivity.
  cbn [strip_pairs].
  destruct (Ascii.eqb_spec a "0") as [->|]; [|reflexivity].
  destruct (Ascii.eqb_spec b "0") as [->|]; [|reflexivity].
  destruct (negb (String.eqb r "")); [|reflexivity].
  cbn [andb]. now rewrite !digit_value_zero.
Qed.

Lemma strip_pairs_forallb (p : ascii -> bool) (d : string) :
  JS.forallb p d = true -> JS.forallb p (strip_pairs d) = true.
Proof.
  induction d as [| a | a b r IH] using string_pair_ind; auto.
  cbn [strip_pairs]. destruct (_ && _); auto.
  simpl. intro H. apply andb_prop in H as [_ H].
  apply andb_prop in H as [_ H]. auto.
Qed.

Lemma hex_char_reads (c : ascii) (u : Hexadecimal.uint) :
  JS.is_hex_i c = true ->
  HexadecimalString.uint_of_char (BN.lower c) (Some u) =
  Some (BN.push_digit (BN.hex_digit c) u).
Proof.
  each_ascii c; intro H; vm_compute in H; try discriminate; reflexivity.
Qed.

Lemma hex_not_space (c : ascii) :
  JS.is_hex_i c = true -> BN.is_space c = false.
Proof.
  each_ascii c; intro H; vm_compute in H; try discriminate; reflexivity.
Qed.

Lemma read_hex_strict (d : string) :
  JS.forallb JS.is_hex_i d = true ->
  BN.hex_uint_of_string d = Some (BN.read_hex d).
Proof.
  induction d as [|a d IH]; [reflexivity|].
  simpl. intro H. apply andb_prop in H as [Ha Hd].
  rewrite (IH Hd). now apply hex_char_reads.
Qed.

Lemma remove_spaces_hex (d : string) :
  JS.forallb JS.is_hex_i d = true -> BN.remove_spaces d = d.
Proof.
  induction d as [|a d IH]; [reflexivity|].
  simpl. intro H. apply andb_prop in H as [Ha Hd].
  now rewrite (hex_not_space _ Ha), (IH Hd).
Qed.

Lemma of_hex_digits (d : string) :
  JS.forallb JS.is_hex_i d = true ->
  BN.of_hex d = digit_value d /\
  BN.of_hex (String "-" d) = option_map Z.opp (digit_value d).
Proof.
  intro H. unfold digit_value. rewrite (read_hex_strict _ H).
  unfold BN.of_hex. cbn [BN.remove_spaces].
  change (BN.is_space "-") with false. cbv iota.
  rewrite (remove_spaces_hex _ H). cbv zeta.
  cbn [JS.first_is]. rewrite Ascii.eqb_refl, substring_from_1.
  rewrite (hex_first_not_sign _ H). split; reflexivity.
Qed.

Lemma decode_unsigned (s : string) :
  JS.forallb JS.is_hex_i (body s) = true ->
  decode (toHex_unsigned s) = digit_value (body s).
Proof.
  intro H. rewrite toHex_unsigned_spec.
  destruct (String.eqb_spec (body s) "") as [->|Hne]; [reflexivity|].
  unfold decode.
  change ("0x" ++ ?d) with (String "0" (String "x" d)).
  cbn [JS.first_is]. change (Ascii.eqb "0" "-") with false. cbv iota.
  rewrite substring_from_2.
  assert (JS.forallb JS.is_hex_i (strip_pairs (even_pad (body s))) = true) as Hd
    by (apply strip_pairs_forallb, even_pad_forallb; auto).
  rewrite (proj1 (of_hex_digits _ Hd)).
  now rewrite digit_value_strip_pairs, digit_value_even_pad.
Qed.

Lemma toHex_decode (s h : string) :
  JS.forallb JS.is_hex_i (digits_of s) = true ->
  toHex s = Ok h ->
  decode h = signed (JS.first_is "-" s) (digit_value (digits_of s)).
Proof.
  unfold digits_of. intros Hp.
  destruct s as [|a r].
  - intros [= <-]. now apply decode_unsigned.
  - destruct (Ascii.eqb_spec a "-") as [->|Ha].
    + change (JS.first_is "-" (String "-" r)) with true in *.
      cbv iota in Hp. rewrite substring_from_1 in *.
      destruct (JS.first_is "-" r) eqn:Hr.
      * rewrite toHex_double_sign by assumption. discriminate.
      * rewrite toHex_neg by assumption.
        pose proof (decode_unsigned r Hp) as Hd.
        destruct (String.eqb_spec (toHex_unsigned r) "0x00") as [Hz|Hz];
          intros [= <-].
        -- rewrite Hz in Hd. rewrite <- Hd. reflexivity.
        -- revert Hd Hz. rewrite toHex_unsigned_spec.
           destruct (String.eqb (body r) ""); [congruence|].
           intros Hd _. unfold decode in *.
           change ("0x" ++ ?d) with (String "0" (String "x" d)) in *.
           cbn [JS.first_is] in *. rewrite Ascii.eqb_refl.
           change (Ascii.eqb "0" "-") with false in Hd. cbv iota in Hd.
           rewrite substring_from_2 in Hd. rewrite substring_from_3.
           assert (JS.forallb JS.is_hex_i (strip_pairs (even_pad (body r))) = true)
             as Hf by (apply strip_pairs_forallb, even_pad_forallb; auto).
           destruct (of_hex_digits _ Hf) as [H1 H2].
           change ("-" ++ ?d) with (String "-" d).
           rewrite H2. rewrite H1 in Hd. now rewrite Hd.
    + assert (JS.first_is "-" (String a r) = false) as Hn
        by (simpl; now apply Ascii.eqb_neq).
      rewrite Hn in *. rewrite toHex_nonneg by assumption.
      intros [= <-]. now apply decode_unsigned.
Qed.

(** ** The engine's renderer and parser *)

Lemma hex_render_lower (u : Hexadecimal.uint) :
  JS.forallb JS.is_lower_hex (HexadecimalString.NilEmpty.string_of_uint u) = true.
Proof.
  induction u; simpl; rewrite ?IHu; reflexivity.
Qed.

Lemma hex_parse_render (u : Hexadecimal.uint) :
  BN.hex_uint_of_string (HexadecimalString.NilEmpty.string_of_uint u) = Some u.
Proof.
  induction u; simpl; rewrite ?IHu; reflexivity.
Qed.

Lemma hex_render_nonempty (u : Hexadecimal.uint) :
  u <> Hexadecimal.Nil ->
  String.eqb (HexadecimalString.NilEmpty.string_of_uint u) "" = false.
Proof.
  destruct u; intro H; try reflexivity. now destruct H.
Qed.

Lemma hex_parse_lower (s : string) :
  JS.forallb JS.is_lower_hex s = true ->
  BN.hex_uint_of_string s = HexadecimalString.NilEmpty.uint_of_string s.
Proof.
  induction s as [|a s IH]; [reflexivity|].
  simpl. intro H. apply andb_prop in H as [Ha Hs].
  now rewrite (lower_fixed _ Ha), IH.
Qed.

Lemma hex_parse_total (s : string) :
  JS.forallb JS.is_hex_i s = true ->
  exists u, BN.hex_uint_of_string s = Some u.
Proof.
  induction s as [|a s IH]; [now exists Hexadecimal.Nil|].
  simpl. intro H. apply andb_prop in H as [Ha Hs].
  destruct (IH Hs) as [u ->]. now apply hex_char_parses.
Qed.

(** What [toString(16)] returns: a sign for a negative value, then at least
    one lowercase digit, reading back as the magnitude. *)
Lemma toString16_spec (z : Z) :
  exists d,
    BN.toString16 z = (if (z <? 0)%Z then String "-" d else d) /\
    String.eqb d "" = false /\
    JS.forallb JS.is_lower_hex d = true /\
    digit_value d = Some (Z.abs z).
Proof.
  unfold BN.toString16, digit_value.
  destruct z as [|p|p]; cbn [Z.to_hex_int Z.ltb Z.compare Z.abs].
  - exists "0". repeat split.
  - exists (HexadecimalString.NilEmpty.string_of_uint (Pos.to_hex_uint p)).
    repeat split.
    + apply hex_render_nonempty, HexadecimalPos.Unsigned.to_uint_nonnil.
    + apply hex_render_lower.
    + rewrite hex_parse_render. cbn [option_map]. f_equal.
      unfold Z.of_hex_uint. now rewrite HexadecimalPos.Unsigned.of_to.
  - exists (HexadecimalString.NilEmpty.string_of_uint (Pos.to_hex_uint p)).
    repeat split.
    + apply hex_render_nonempty, HexadecimalPos.Unsigned.to_uint_nonnil.
    + apply hex_render_lower.
    + rewrite hex_parse_render. cbn [option_map]. f_equal.
      unfold Z.of_hex_uint. now rewrite HexadecimalPos.Unsigned.of_to.
Qed.

Lemma digits_of_unsigned (d : string) :
  JS.forallb JS.is_hex_i d = true -> digits_of d = d.
Proof.
  intro H. unfold digits_of. rewrite (hex_first_not_sign _ H).
  now apply hex_body.
Qed.

Lemma digits_of_signed (d : string) :
  JS.forallb JS.is_hex_i d = true -> digits_of (String "-" d) = d.
Proof.
  intro H. unfold digits_of. cbn [JS.first_is]. rewrite Ascii.eqb_refl.
  rewrite substring_from_1. now apply hex_body.
Qed.

Lemma toHex_digits_ok (sign : bool) (d : string) :
  JS.forallb JS.is_hex_i d = true ->
  exists h, toHex (if sign then String "-" d else d) = Ok h.
Proof.
  intro H. pose proof (hex_first_not_sign _ H) as Hn. destruct sign.
  - rewrite toHex_neg by assumption. eauto.
  - rewrite toHex_nonneg by assumption. eauto.
Qed.

(** Normalising an engine integer succeeds; the result is canonical and
    reads back as the same integer. *)
Lemma toHex_BN_spec (z : Z) :
  exists h,
    toHex_BN z = Ok h /\ canonical h = true /\ decode h = Some z.
Proof.
  unfold toHex_BN.
  destruct (toString16_spec z) as (d & -> & Hne & Hlow & Hval).
  pose proof (forallb_weaken _ _ _ lower_hex_is_hex Hlow) as Hhex.
  destruct (toHex_digits_ok (z <? 0)%Z d Hhex) as [h Hh].
  exists h. split; [exact Hh|]. split.
  - apply (toHex_canonical_with JS.is_lower_hex _ _ eq_refl) in Hh; [exact Hh|].
    destruct (z <? 0)%Z;
      [rewrite digits_of_signed | rewrite digits_of_unsigned]; assumption.
  - apply toHex_decode in Hh.
    + rewrite Hh. destruct (Z.ltb_spec z 0) as [Hz|Hz].
      * rewrite digits_of_signed by assumption. cbn [JS.first_is].
        rewrite Ascii.eqb_refl, Hval. cbn. f_equal. lia.
      * rewrite digits_of_unsigned by assumption.
        rewrite (hex_first_not_sign _ Hhex), Hval. cbn. f_equal. lia.
    + destruct (z <? 0)%Z;
        [rewrite digits_of_signed | rewrite digits_of_unsigned]; assumption.
Qed.

(** ** The hex pattern of the dispatcher *)

Lemma canonical_with_inv (p : ascii -> bool) (h : string) :
  canonical_with p h = true ->
  exists sign d,
    h = (if sign : bool then String "-" ("0x" ++ d) else "0x" ++ d) /\
    canonical_digits p d = true /\
    (sign = true -> String.eqb d "00" = false).
Proof.
  unfold canonical_with.
  destruct h as [|a r]; [discriminate|].
  cbn [JS.first_is]. destruct (Ascii.eqb_spec a "-") as [->|Ha].
  - rewrite substring_from_1. intro H. apply andb_prop in H as [Hc Hz].
    apply canonical_unsigned_inv in Hc as (d & -> & Hd).
    exists true, d. repeat split; auto.
    intros _. apply negb_true_iff in Hz. exact Hz.
  - intro Hc. apply canonical_unsigned_inv in Hc as (d & -> & Hd).
    exists false, d. repeat split; auto. discriminate.
Qed.

Lemma canonical_matches_hex (h : string) :
  canonical_with JS.is_hex_i h = true -> matches_hex h = true.
Proof.
  intro H. apply canonical_with_inv in H as (sign & d & -> & Hd & _).
  unfold canonical_digits in Hd.
  apply andb_prop in Hd as [Hd _]. apply andb_prop in Hd as [Hd _].
  apply andb_prop in Hd as [Hne Hp].
  destruct d as [|c d]; [discriminate|].
  simpl in Hp. apply andb_prop in Hp as [Hc _].
  destruct sign; cbn; rewrite Hc; reflexivity.
Qed.

Lemma canonical_is_hex (h : string) :
  canonical h = true -> canonical_with JS.is_hex_i h = true.
Proof.
  intro H. apply canonical_with_inv in H as (sign & d & -> & Hd & Hz).
  apply (canonical_digits_weaken _ _ _ lower_hex_is_hex) in Hd.
  unfold canonical_with. destruct sign.
  - cbn [JS.first_is]. rewrite Ascii.eqb_refl, substring_from_1.
    rewrite canonical_unsigned_prefixed, Hd.
    specialize (Hz eq_refl). cbn. cbn in Hz. now rewrite Hz.
  - change (JS.first_is "-" ("0x" ++ d)) with false. cbv iota.
    now rewrite canonical_unsigned_prefixed.
Qed.

(** A canonical string is its own normal form. *)
Lemma canonical_fixed (p : ascii -> bool) (h : string) :
  canonical_with p h = true -> toHex h = Ok h.
Proof.
  intro H. apply canonical_with_inv in H as (sign & d & -> & Hd & Hz).
  assert (canonical_unsigned p ("0x" ++ d) = true) as Hc
    by now rewrite canonical_unsigned_prefixed.
  destruct sign.
  - rewrite toHex_neg by reflexivity.
    rewrite (canonical_unsigned_fixed _ _ Hc).
    specialize (Hz eq_refl).
    change (String.eqb ("0x" ++ d) "0x00") with (String.eqb d "00").
    now rewrite Hz.
  - rewrite toHex_nonneg by reflexivity.
    now rewrite (canonical_unsigned_fixed _ _ Hc).
Qed.

(** A canonical string handed to the dispatcher is stored as it is. *)
Lemma from_string_canonical (h : string) :
  canonical_with JS.is_hex_i h = true ->
  from_string h = Ok (mkBigNumber h).
Proof.
  intro H. unfold from_string.
  rewrite (canonical_matches_hex _ H), (canonical_fixed _ _ H). reflexivity.
Qed.

Lemma toBigNumber_spec (z : Z) :
  exists h,
    toBigNumber z = Ok (mkBigNumber h) /\
    canonical h = true /\ decode h = Some z.
Proof.
  destruct (toHex_BN_spec z) as (h & Hh & Hc & Hd).
  exists h. split; [|now split].
  unfold toBigNumber. rewrite Hh. cbn [bind from].
  apply from_string_canonical. now apply canonical_is_hex.
Qed.

Lemma toBN_decode (v : value) :
  toBN v = let* b := from v in engine (decode (toHexString b)).
Proof.
  unfold toBN, decode. destruct (from v) as [b|e]; [|reflexivity].
  cbn [bind]. destruct (JS.first_is "-" (toHexString b)); reflexivity.
Qed.

(** ** A canonical string is the rendering of the integer it denotes *)

Lemma normal_zero (s : string) :
  String.eqb s "" = false ->
  strip_pairs (even_pad (String "0" s)) = strip_pairs (even_pad s).
Proof.
  intro Hne. unfold even_pad. cbn [String.length].
  rewrite Nat.odd_succ, <- Nat.negb_odd.
  destruct (Nat.odd (String.length s)); cbn [negb]; [reflexivity|].
  cbn [strip_pairs]. rewrite Ascii.eqb_refl, Hne. reflexivity.
Qed.

Lemma normal_nzhead (u : Hexadecimal.uint) :
  Hexadecimal.nzhead u <> Hexadecimal.Nil ->
  strip_pairs (even_pad (HexadecimalString.NilEmpty.string_of_uint
                           (Hexadecimal.nzhead u))) =
  strip_pairs (even_pad (HexadecimalString.NilEmpty.string_of_uint u)).
Proof.
  induction u; intro H; try reflexivity.
  cbn [Hexadecimal.nzhead] in *.
  cbn [HexadecimalString.NilEmpty.string_of_uint].
  rewrite normal_zero; [auto|].
  apply hex_render_nonempty. intros ->. now apply H.
Qed.

Lemma normal_all_zero (u : Hexadecimal.uint) :
  u <> Hexadecimal.Nil ->
  Hexadecimal.nzhead u = Hexadecimal.Nil ->
  strip_pairs (even_pad (HexadecimalString.NilEmpty.string_of_uint u)) = "00".
Proof.
  induction u; intros Hne Hz; try discriminate; try now destruct Hne.
  cbn [Hexadecimal.nzhead] in Hz.
  cbn [HexadecimalString.NilEmpty.string_of_uint].
  destruct (Hexadecimal.uint_eq_dec u Hexadecimal.Nil) as [->|Hu];
    [reflexivity|].
  rewrite normal_zero by now apply hex_render_nonempty.
  auto.
Qed.

Lemma toHex_unsigned_digits (d : string) :
  JS.forallb JS.is_hex_i d = true ->
  String.eqb d "" = false ->
  toHex_unsigned d = "0x" ++ strip_pairs (even_pad d).
Proof.
  intros H Hne. rewrite toHex_unsigned_spec, (hex_body _ H), Hne. reflexivity.
Qed.

Lemma hex_render_hex (u : Hexadecimal.uint) :
  JS.forallb JS.is_hex_i (HexadecimalString.NilEmpty.string_of_uint u) = true.
Proof.
  apply (forallb_weaken _ _ _ lower_hex_is_hex), hex_render_lower.
Qed.

Lemma canonical_digits_lower (d : string) :
  canonical_digits JS.is_lower_hex d = true ->
  JS.forallb JS.is_lower_hex d = true.
Proof.
  unfold canonical_digits. intro H.
  apply andb_prop in H as [H _]. apply andb_prop in H as [H _].
  now apply andb_prop in H as [_ H].
Qed.

Lemma decode_canonical (sign : bool) (d : string) :
  JS.forallb JS.is_hex_i d = true ->
  decode (if sign then String "-" ("0x" ++ d) else "0x" ++ d) =
  signed sign (digit_value d).
Proof.
  intro H. destruct (of_hex_digits _ H) as [H1 H2].
  unfold decode. destruct sign.
  - change ("0x" ++ d) with (String "0" (String "x" d)).
    cbn [JS.first_is]. rewrite Ascii.eqb_refl, substring_from_3.
    exact H2.
  - change ("0x" ++ d) with (String "0" (String "x" d)).
    cbn [JS.first_is]. change (Ascii.eqb "0" "-") with false. cbv iota.
    rewrite substring_from_2. exact H1.
Qed.

(** Rendering the integer read from a canonical string and normalising the
    rendering gives the string back. *)
Lemma render_decode (h : string) (z : Z) :
  canonical h = true -> decode h = Some z -> toHex_BN z = Ok h.
Proof.
  intros Hc Hz.
  apply canonical_with_inv in Hc as (sign & d & -> & Hd & Hs).
  pose proof (canonical_digits_lower _ Hd) as Hlow.
  pose proof (forallb_weaken _ _ _ lower_hex_is_hex Hlow) as Hhex.
  pose proof (canonical_digits_nonempty _ _ Hd) as Hne.
  rewrite (decode_canonical _ _ Hhex) in Hz.
  unfold digit_value in Hz.
  destruct (BN.hex_uint_of_string d) as [u|] eqn:Hu;
    [|destruct sign; discriminate].
  rewrite (hex_parse_lower _ Hlow) in Hu.
  apply HexadecimalString.NilEmpty.sus in Hu.
  assert (u <> Hexadecimal.Nil) as Hnil
    by (intros ->; subst d; discriminate).
  assert (z = Z.of_hex_int (if sign then Hexadecimal.Neg u else Hexadecimal.Pos u))
    as -> by (destruct sign; cbn in Hz; now injection Hz as <-).
  unfold toHex_BN, BN.toString16. rewrite HexadecimalZ.to_of.
  pose proof (canonical_digits_stable _ _ Hd) as Hst. rewrite <- Hu in Hst.
  destruct (Hexadecimal.uint_eq_dec (Hexadecimal.nzhead u) Hexadecimal.Nil)
    as [Hz0|Hnz].
  - rewrite (normal_all_zero u Hnil Hz0) in Hst.
    destruct sign.
    + specialize (Hs eq_refl). rewrite <- Hu, <- Hst in Hs. discriminate.
    + cbn [Hexadecimal.norm]. unfold Hexadecimal.unorm. rewrite Hz0.
      rewrite <- Hu, <- Hst. reflexivity.
  - pose proof (normal_nzhead u Hnz) as Hn. rewrite Hst in Hn.
    pose proof (hex_render_hex (Hexadecimal.nzhead u)) as Hh.
    pose proof (hex_render_nonempty _ Hnz) as Hne'.
    destruct sign.
    + assert (Hexadecimal.norm (Hexadecimal.Neg u) =
              Hexadecimal.Neg (Hexadecimal.nzhead u)) as ->
        by (cbn [Hexadecimal.norm]; destruct (Hexadecimal.nzhead u); congruence).
      cbn [HexadecimalString.NilEmpty.string_of_int].
      rewrite toHex_neg by now apply hex_first_not_sign.
      rewrite toHex_unsigned_digits by assumption. rewrite Hn, Hu.
      specialize (Hs eq_refl).
      change (String.eqb ("0x" ++ d) "0x00") with (String.eqb d "00").
      now rewrite Hs.
    + cbn [Hexadecimal.norm].
      rewrite (HexadecimalFacts.unorm_nzhead u Hnz).
      cbn [HexadecimalString.NilEmpty.string_of_int].
      rewrite toHex_nonneg by now apply hex_first_not_sign.
      rewrite toHex_unsigned_digits by assumption. now rewrite Hn, Hu.
Qed.

Lemma canonical_decodes (h : string) :
  canonical_with JS.is_hex_i h = true -> exists z, decode h = Some z.
Proof.
  intro Hc. apply canonical_with_inv in Hc as (sign & d & -> & Hd & _).
  assert (JS.forallb JS.is_hex_i d = true) as Hhex.
  { unfold canonical_digits in Hd.
    apply andb_prop in Hd as [H _]. apply andb_prop in H as [H _].
    now apply andb_prop in H as [_ H]. }
  rewrite (decode_canonical _ _ Hhex). unfold digit_value.
  destruct (hex_parse_total _ Hhex) as [u ->].
  destruct sign; cbn; eauto.
Qed.

(** On canonical strings, equal integers have equal strings. *)
Lemma decode_injective (h1 h2 : string) (z : Z) :
  canonical h1 = true -> canonical h2 = true ->
  decode h1 = Some z -> decode h2 = Some z -> h1 = h2.
Proof.
  intros Hc1 Hc2 Hd1 Hd2.
  pose proof (render_decode _ _ Hc1 Hd1) as H1.
  pose proof (render_decode _ _ Hc2 Hd2) as H2.
  congruence.
Qed.

(** ** Decimal strings *)

Lemma digit_parses (c : ascii) (u : Decimal.uint) :
  JS.is_digit c = true ->
  exists u', DecimalString.uint_of_char c (Some u) = Some u'.
Proof.
  each_ascii c; intro H; vm_compute in H; try discriminate;
    eexists; reflexivity.
Qed.

Lemma digit_not_x (c : ascii) :
  JS.is_digit c = true -> negb (JS.is_x_i c) = true.
Proof.
  each_ascii c; intro H; vm_compute in H; try discriminate; reflexivity.
Qed.

Lemma digit_is_hex (c : ascii) : JS.is_digit c = true -> JS.is_hex_i c = true.
Proof. intro H. now apply lower_hex_is_hex, digit_is_lower_hex. Qed.

Lemma dec_parse_total (s : string) :
  JS.forallb JS.is_digit s = true ->
  exists u, DecimalString.NilEmpty.uint_of_string s = Some u.
Proof.
  induction s as [|a s IH]; [now exists Decimal.Nil|].
  simpl. intro H. apply andb_prop in H as [Ha Hs].
  destruct (IH Hs) as [u ->]. now apply digit_parses.
Qed.

Lemma dec_render_digits (u : Decimal.uint) :
  JS.forallb JS.is_digit (DecimalString.NilEmpty.string_of_uint u) = true.
Proof.
  induction u; simpl; rewrite ?IHu; reflexivity.
Qed.

Lemma dec_render_nonempty (u : Decimal.uint) :
  u <> Decimal.Nil ->
  String.eqb (DecimalString.NilEmpty.string_of_uint u) "" = false.
Proof.
  destruct u; intro H; try reflexivity. now destruct H.
Qed.

Lemma matches_decimal_inv (s : string) :
  matches_decimal s = true ->
  exists sign d,
    s = (if sign : bool then String "-" d else d) /\
    String.eqb d "" = false /\
    JS.forallb JS.is_digit d = true.
Proof.
  destruct s as [|a r]; [discriminate|].
  cbn [matches_decimal]. unfold all_digits.
  destruct (Ascii.eqb_spec a "-") as [->|_]; intro H;
    apply andb_prop in H as [Hne Hd]; apply negb_true_iff in Hne.
  - exists true, r. auto.
  - exists false, (String a r). auto.
Qed.

Lemma matches_decimal_intro (sign : bool) (d : string) :
  String.eqb d "" = false ->
  JS.forallb JS.is_digit d = true ->
  matches_decimal (if sign then String "-" d else d) = true.
Proof.
  intros Hne Hd. destruct sign.
  - cbn [matches_decimal]. rewrite Ascii.eqb_refl.
    unfold all_digits. now rewrite Hne, Hd.
  - destruct d as [|a r]; [discriminate|].
    cbn [matches_decimal].
    assert (Ascii.eqb a "-" = false) as ->.
    { simpl in Hd. apply andb_prop in Hd as [Ha _].
      now apply hex_not_sign, digit_is_hex. }
    unfold all_digits. now rewrite Hne, Hd.
Qed.

Lemma no_x_literal (s : string) : no_x s = true -> hex_literal_here s = false.
Proof.
  unfold no_x. destruct s as [|a [|b [|c r]]]; try reflexivity.
  simpl. intro H. apply andb_prop in H as [_ H]. apply andb_prop in H as [Hb _].
  apply negb_true_iff in Hb. rewrite Hb.
  destruct (Ascii.eqb a "0"); reflexivity.
Qed.

Lemma no_x_matches_hex (s : string) : no_x s = true -> matches_hex s = false.
Proof.
  induction s as [|a s IH]; [reflexivity|].
  intro H. pose proof (no_x_literal _ H) as Hl.
  unfold no_x in H. simpl in H. apply andb_prop in H as [_ Hs].
  cbn [matches_hex hex_pattern_here].
  rewrite Hl, (no_x_literal s Hs), (IH Hs).
  now rewrite andb_false_r.
Qed.

Lemma matches_decimal_not_hex (s : string) :
  matches_decimal s = true -> matches_hex s = false.
Proof.
  intro H. apply matches_decimal_inv in H as (sign & d & -> & _ & Hd).
  apply no_x_matches_hex.
  assert (no_x d = true) as Hx
    by (apply (forallb_weaken _ _ _ digit_not_x); exact Hd).
  destruct sign; [|exact Hx].
  unfold no_x in *. simpl. exact Hx.
Qed.

(** The engine parses what the decimal pattern lets through. *)
Lemma of_dec_matches (sign : bool) (d : string) :
  String.eqb d "" = false ->
  JS.forallb JS.is_digit d = true ->
  exists u,
    DecimalString.NilEmpty.string_of_uint u = d /\
    BN.of_dec (if sign then String "-" d else d) =
    Some (Z.of_int (if sign then Decimal.Neg u else Decimal.Pos u)).
Proof.
  intros Hne Hd. destruct (dec_parse_total _ Hd) as [u Hu].
  exists u. split; [now apply DecimalString.NilEmpty.sus|].
  unfold BN.of_dec, DecimalString.NilEmpty.int_of_string.
  destruct sign.
  - rewrite Ascii.eqb_refl, Hu. reflexivity.
  - destruct d as [|a r]; [discriminate|].
    assert (Ascii.eqb a "-" = false) as ->.
    { simpl in Hd. apply andb_prop in Hd as [Ha _].
      now apply hex_not_sign, digit_is_hex. }
    rewrite Hu. reflexivity.
Qed.

(** What [toString(10)] returns. *)
Lemma toString10_spec (z : Z) :
  exists d,
    BN.toString10 z = (if (z <? 0)%Z then String "-" d else d) /\
    String.eqb d "" = false /\
    JS.forallb JS.is_digit d = true.
Proof.
  unfold BN.toString10.
  destruct z as [|p|p]; cbn [Z.to_int Z.ltb Z.compare].
  - exists "0". repeat split.
  - exists (DecimalString.NilEmpty.string_of_uint (Pos.to_uint p)).
    repeat split.
    + apply dec_render_nonempty, DecimalPos.Unsigned.to_uint_nonnil.
    + apply dec_render_digits.
  - exists (DecimalString.NilEmpty.string_of_uint (Pos.to_uint p)).
    repeat split.
    + apply dec_render_nonempty, DecimalPos.Unsigned.to_uint_nonnil.
    + apply dec_render_digits.
Qed.

Lemma toString10_matches (z : Z) : matches_decimal (BN.toString10 z) = true.
Proof.
  destruct (toString10_spec z) as (d & -> & Hne & Hd).
  now apply matches_decimal_intro.
Qed.

Lemma of_dec_toString10 (z : Z) : BN.of_dec (BN.toString10 z) = Some z.
Proof.
  unfold BN.of_dec, BN.toString10.
  rewrite DecimalString.NilEmpty.isi. cbn [option_map].
  now rewrite DecimalZ.of_to.
Qed.

(** The dispatcher on a decimal string: the engine's integer, normalised. *)
Lemma from_string_decimal (s : string) (z : Z) :
  matches_decimal s = true ->
  BN.of_dec s = Some z ->
  exists h,
    from_string s = Ok (mkBigNumber h) /\
    canonical h = true /\ decode h = Some z.
Proof.
  intros Hm Hz. unfold from_string.
  rewrite (matches_decimal_not_hex _ Hm), Hm, Hz. cbn [engine bind].
  destruct (toHex_BN_spec z) as (h & -> & Hc & Hd).
  exists h. auto.
Qed.

Lemma from_string_toString10 (z : Z) :
  exists h,
    from_string (BN.toString10 z) = Ok (mkBigNumber h) /\
    canonical h = true /\ decode h = Some z.
Proof.
  apply from_string_decimal;
    [apply toString10_matches | apply of_dec_toString10].
Qed.

(** Rendering after parsing strips the leading zeros. *)
Lemma dec_render_unorm (u : Decimal.uint) :
  u <> Decimal.Nil ->
  DecimalString.NilEmpty.string_of_uint (Decimal.unorm u) =
  strip_zeros (DecimalString.NilEmpty.string_of_uint u).
Proof.
  induction u; intro Hne; try reflexivity; [now destruct Hne|].
  rewrite DecimalFacts.unorm_D0.
  cbn [DecimalString.NilEmpty.string_of_uint strip_zeros].
  rewrite Ascii.eqb_refl. cbn [andb].
  destruct (Decimal.uint_eq_dec u Decimal.Nil) as [->|Hu]; [reflexivity|].
  rewrite (dec_render_nonempty _ Hu). cbn [negb]. auto.
Qed.

(** ** The dispatcher on whole-string inputs *)

Lemma whole_hex_inv (p : ascii -> bool) (s : string) :
  whole_hex p s = true ->
  exists sign d,
    s = (if sign : bool then String "-" ("0x" ++ d) else "0x" ++ d) /\
    String.eqb d "" = false /\
    JS.forallb p d = true.
Proof.
  assert (forall t, hex_literal p t = true ->
          exists d, t = "0x" ++ d /\ String.eqb d "" = false /\
                    JS.forallb p d = true) as Hl.
  { intros [|a [|b d]]; try discriminate. cbn [hex_literal]. intro H.
    apply andb_prop in H as [H Hp]. apply andb_prop in H as [H Hne].
    apply andb_prop in H as [Ha Hb].
    apply Ascii.eqb_eq in Ha, Hb. subst. apply negb_true_iff in Hne.
    exists d. auto. }
  destruct s as [|a r]; [discriminate|].
  cbn [whole_hex]. destruct (Ascii.eqb_spec a "-") as [->|_]; intro H.
  - destruct (Hl _ H) as (d & -> & Hne & Hp). exists true, d. auto.
  - destruct (Hl _ H) as (d & Hs & Hne & Hp). exists false, d. auto.
Qed.

Lemma from_string_whole_hex (p : ascii -> bool) (s : string) :
  (forall c, p c = true -> JS.is_hex_i c = true) ->
  p "0"%char = true ->
  whole_hex p s = true ->
  exists h,
    from_string s = Ok (mkBigNumber h) /\ toHex s = Ok h /\
    canonical_with p h = true.
Proof.
  intros Hp H0 Hw.
  apply whole_hex_inv in Hw as (sign & d & -> & Hne & Hd).
  pose proof (forallb_weaken _ _ _ Hp Hd) as Hhex.
  assert (matches_hex (if sign then String "-" ("0x" ++ d) else "0x" ++ d)
          = true) as Hm.
  { destruct d as [|c d]; [discriminate|].
    simpl in Hhex. apply andb_prop in Hhex as [Hc _].
    destruct sign; cbn; rewrite Hc; reflexivity. }
  assert (exists h,
    toHex (if sign then String "-" ("0x" ++ d) else "0x" ++ d) = Ok h)
    as [h Hh].
  { destruct sign;
      [rewrite toHex_neg by reflexivity | rewrite toHex_nonneg by reflexivity];
      eauto. }
  exists h. unfold from_string. rewrite Hm, Hh. repeat split.
  apply (toHex_canonical_with p _ _ H0) in Hh; [exact Hh|].
  unfold digits_of. destruct sign.
  - cbn [JS.first_is]. rewrite Ascii.eqb_refl, substring_from_1.
    now rewrite body_prefixed.
  - change (JS.first_is "-" ("0x" ++ d)) with false. cbv iota.
    now rewrite body_prefixed.
Qed.

Lemma from_string_clean (s : string) (b : BigNumber) :
  clean_string s = true ->
  from_string s = Ok b ->
  canonical (toHexString b) = true.
Proof.
  unfold clean_string. intros Hc Hb.
  destruct (matches_decimal s) eqn:Hm.
  - pose proof Hm as Hi.
    apply matches_decimal_inv in Hi as (sign & d & -> & Hne & Hd).
    destruct (of_dec_matches sign d Hne Hd) as (u & _ & Hz).
    destruct (from_string_decimal _ _ Hm Hz) as (h & Hh & Hcan & _).
    rewrite Hh in Hb. injection Hb as <-. exact Hcan.
  - cbn [orb] in Hc.
    destruct (from_string_whole_hex _ s lower_hex_is_hex eq_refl Hc)
      as (h & Hh & _ & Hcan).
    rewrite Hh in Hb. injection Hb as <-. exact Hcan.
Qed.

Lemma hex_of_bytes_lower (bytes : list Byte.byte) :
  JS.forallb JS.is_lower_hex (hex_of_bytes bytes) = true.
Proof.
  induction bytes as [|b r IH]; [reflexivity|].
  cbn [hex_of_bytes JS.forallb]. rewrite IH.
  destruct b; reflexivity.
Qed.

Lemma hexlify_clean (bytes : list Byte.byte) :
  bytes <> [] -> clean_string (hexlify bytes) = true.
Proof.
  intro Hne. unfold clean_string.
  assert (whole_hex JS.is_lower_hex (hexlify bytes) = true) as ->;
    [|apply orb_true_r].
  unfold hexlify. change ("0x" ++ ?d) with (String "0" (String "x" d)).
  cbn [whole_hex hex_literal]. change (Ascii.eqb "0" "-") with false.
  cbv iota. rewrite hex_of_bytes_lower.
  destruct bytes as [|b r]; [now destruct Hne|]. reflexivity.
Qed.

(** An object is accepted exactly through the string it dispatches. *)
Lemma from_object_dispatched (o : object) :
  match dispatched o with
  | Some s => from (VObject o) = from_string s
  | None => is_InvalidArgument (from (VObject o)) = true
  end.
Proof.
  unfold dispatched. cbn [from]. destruct (obj_hex o) as [h|].
  - destruct (_ && _); [reflexivity|].
    destruct (obj_toHexString o) as [[]|]; reflexivity.
  - destruct (obj_toHexString o) as [[]|]; reflexivity.
Qed.

Lemma from_object_accepted (o : object) (b : BigNumber) :
  from (VObject o) = Ok b ->
  exists s, dispatched o = Some s /\ from_string s = Ok b.
Proof.
  pose proof (from_object_dispatched o) as H.
  destruct (dispatched o) as [s|].
  - rewrite H. eauto.
  - intro Hb. rewrite Hb in H. discriminate.
Qed.

Lemma from_bytes_clean (bytes : list Byte.byte) (b : BigNumber) :
  from_string (hexlify bytes) = Ok b -> canonical (toHexString b) = true.
Proof.
  destruct bytes as [|x r]; [vm_compute; discriminate|].
  apply from_string_clean, hexlify_clean. discriminate.
Qed.

(** Every clean input the dispatcher accepts is stored in canonical form. *)
Lemma from_clean_canonical (v : value) (b : BigNumber) :
  clean v = true -> from v = Ok b -> canonical (toHexString b) = true.
Proof.
  destruct v as [|b'|s|n|z|bytes|o|bytes o]; cbn [clean].
  - discriminate.
  - intros Hc [= <-]. exact Hc.
  - apply from_string_clean.
  - intros _. cbn [from]. destruct n as [z| | |neg]; try discriminate.
    destruct (_ || _); [discriminate|].
    destruct (from_string_toString10 z) as (h & -> & Hc & _).
    now intros [= <-].
  - intros _. cbn [from].
    destruct (from_string_toString10 z) as (h & -> & Hc & _).
    now intros [= <-].
  - intros _. apply from_bytes_clean.
  - intros Hc Hb. apply from_object_accepted in Hb as (s & Hs & Hb).
    rewrite Hs in Hc. now apply (from_string_clean s).
  - intros _. apply from_bytes_clean.
Qed.

(** ** Closure of the operations *)

Lemma toBigNumber_canonical (z : Z) (r : BigNumber) :
  toBigNumber z = Ok r -> canonical (toHexString r) = true.
Proof.
  destruct (toBigNumber_spec z) as (h & -> & Hc & _). now intros [= <-].
Qed.

Lemma binary_canonical (op : BN.t -> BN.t -> option BN.t)
      (this : BigNumber) (other : value) (r : BigNumber) :
  binary op this other = Ok r -> canonical (toHexString r) = true.
Proof.
  unfold binary.
  destruct (toBN (VBigNumber this)) as [x|]; [|discriminate].
  destruct (toBN other) as [y|]; [|discriminate].
  cbn [bind]. destruct (op x y) as [z|]; [|discriminate].
  apply toBigNumber_canonical.
Qed.

Lemma unary_canonical (op : BN.t -> Z -> option BN.t)
      (this : BigNumber) (n : Z) (r : BigNumber) :
  unary op this n = Ok r -> canonical (toHexString r) = true.
Proof.
  unfold unary.
  destruct (toBN (VBigNumber this)) as [x|]; [|discriminate].
  cbn [bind]. destruct (op x n) as [z|]; [|discriminate].
  apply toBigNumber_canonical.
Qed.

Lemma div_canonical {E : BN.Engine}
      (this : BigNumber) (other : value) (r : BigNumber) :
  div this other = Ok r -> canonical (toHexString r) = true.
Proof.
  unfold div.
  destruct (from other) as [o|]; [|discriminate].
  cbn [bind]. destruct (isZero o) as [[|]|]; try discriminate.
  apply binary_canonical.
Qed.

Lemma abs_canonical (this r : BigNumber) :
  canonical (toHexString this) = true ->
  abs this = Ok r -> canonical (toHexString r) = true.
Proof.
  intro Hc. unfold abs. destruct this as [h]. cbn [toHexString _hex] in *.
  pose proof Hc as Hi.
  apply canonical_with_inv in Hi as (sign & d & -> & Hd & _).
  destruct sign.
  - cbn [JS.first_is]. rewrite Ascii.eqb_refl, substring_from_1.
    cbn [from].
    assert (canonical ("0x" ++ d) = true) as Hu.
    { unfold canonical, canonical_with.
      change (JS.first_is "-" ("0x" ++ d)) with false. cbv iota.
      now rewrite canonical_unsigned_prefixed. }
    rewrite from_string_canonical by now apply canonical_is_hex.
    now intros [= <-].
  - change (JS.first_is "-" ("0x" ++ d)) with false. cbv iota.
    now intros [= <-].
Qed.

(** ** The canonical form (C1) *)

(** C1, as stated, fails: [BigNumber.from("0xAB")] is accepted and stored
    with its uppercase digits, so the stored string does not match
    [-?0x[0-9a-f]+] in lowercase. *)
Lemma canonical_form_uppercase_counterexample :
  exists b,
    from (VString "0xAB") = Ok b /\ canonical (toHexString b) = false.
Proof.
  exists (mkBigNumber "0xAB"). split; reflexivity.
Qed.

Lemma matches_hex_prefixed (sign : bool) (d : string) :
  String.eqb d "" = false ->
  JS.forallb JS.is_hex_i d = true ->
  matches_hex (if sign then "-0x" ++ d else "0x" ++ d) = true.
Proof.
  intros Hne Hd. destruct d as [|c d]; [discriminate|].
  simpl in Hd. apply andb_prop in Hd as [Hc _].
  destruct sign; cbn; rewrite Hc; reflexivity.
Qed.

Lemma strip_pairs_zeros (x : string) :
  exists zeros,
    JS.forallb (fun c => Ascii.eqb c "0") zeros = true /\
    x = zeros ++ strip_pairs x.
Proof.
  induction x as [| a | a b r IH] using string_pair_ind;
    try (exists ""; split; reflexivity).
  cbn [strip_pairs].
  destruct (Ascii.eqb_spec a "0") as [->|];
    [|exists ""; split; reflexivity].
  destruct (Ascii.eqb_spec b "0") as [->|];
    [|exists ""; split; reflexivity].
  destruct (negb (String.eqb r ""));
    [|exists ""; split; reflexivity].
  destruct IH as (z & Hz & Hr). exists (String "0" (String "0" z)).
  split; [exact Hz|]. cbn [andb append]. now rewrite <- Hr.
Qed.

(** What the dispatcher stores for a hex literal that is the whole string:
    the digits as they are written, with one [0] in front when their number
    is odd and without their leading [00] pairs, and the sign unless the
    digits left are [00]. *)
Lemma from_string_hex_literal (sign : bool) (d : string) :
  String.eqb d "" = false ->
  JS.forallb JS.is_hex_i d = true ->
  from_string (if sign then "-0x" ++ d else "0x" ++ d) =
  Ok (mkBigNumber
        (if sign && negb (String.eqb (strip_pairs (even_pad d)) "00")
         then "-0x" ++ strip_pairs (even_pad d)
         else "0x" ++ strip_pairs (even_pad d))).
Proof.
  intros Hne Hd. unfold from_string.
  rewrite (matches_hex_prefixed sign d Hne Hd).
  assert (toHex_unsigned ("0x" ++ d) = "0x" ++ strip_pairs (even_pad d)) as Hu
    by (now rewrite toHex_unsigned_spec, body_prefixed, Hne).
  destruct sign.
  - change ("-0x" ++ d) with (String "-" ("0x" ++ d)).
    rewrite toHex_neg by reflexivity. rewrite Hu. cbn [bind andb].
    change (String.eqb ("0x" ++ strip_pairs (even_pad d)) "0x00")
      with (String.eqb (strip_pairs (even_pad d)) "00").
    destruct (String.eqb (strip_pairs (even_pad d)) "00") eqn:Hz;
      [|reflexivity].
    apply String.eqb_eq in Hz. now rewrite Hz.
  - rewrite toHex_nonneg by reflexivity. now rewrite Hu.
Qed.

(** C1 (amended). For every accepted input that is a decimal string, a hex
    literal with lowercase digits that is the whole string, a number, a
    bigint, a byte sequence, or an object that hands such a string to the
    dispatcher (its [_hex] field when that is a valid hex string, otherwise
    the string its [toHexString()] returns), and for the result of every
    arithmetic operation ([abs] on a value stored in canonical form), the
    stored hex string matches [-?0x[0-9a-f]+] with lowercase digits, has an
    even and minimal digit count, is ["0x00"] for zero and never has a
    minus sign before ["0x00"]. A hex literal that is the whole string,
    with the prefix [0x] in lowercase and digits in either case, is stored
    with the digits as they are written, in their case: one [0] is put in
    front when their number is odd, leading [00] pairs are removed while
    something remains, and the sign is kept unless the value is zero. *)
Theorem canonical_form_invariant :
  (forall v b,
      clean v = true -> from v = Ok b ->
      canonical (toHexString b) = true) /\
  (forall (sign : bool) d,
      String.eqb d "" = false -> JS.forallb JS.is_hex_i d = true ->
      let digits := strip_pairs (even_pad d) in
      let stored :=
        if sign && negb (String.eqb digits "00")
        then "-0x" ++ digits else "0x" ++ digits in
      from (VString (if sign then "-0x" ++ d else "0x" ++ d)) =
        Ok (mkBigNumber stored) /\
      canonical_with JS.is_hex_i stored = true /\
      exists zeros,
        JS.forallb (fun c => Ascii.eqb c "0") zeros = true /\
        String "0" d = zeros ++ digits) /\
  (forall (E : BN.Engine) this other r,
      add this other = Ok r \/ sub this other = Ok r \/
      mul this other = Ok r \/ div this other = Ok r \/
      mod_ this other = Ok r \/ pow this other = Ok r ->
      canonical (toHexString r) = true) /\
  (forall (E : BN.Engine) this n r,
      maskn this n = Ok r \/ toTwos this n = Ok r \/
      fromTwos this n = Ok r ->
      canonical (toHexString r) = true) /\
  (forall this r,
      canonical (toHexString this) = true -> abs this = Ok r ->
      canonical (toHexString r) = true).
Proof.
  split; [exact from_clean_canonical|].
  split.
  { intros sign d Hne Hd digits stored. subst digits stored.
    pose proof (from_string_hex_literal sign d Hne Hd) as Hf.
    split; [exact Hf|]. split.
    - assert (whole_hex JS.is_hex_i
                (if sign then "-0x" ++ d else "0x" ++ d) = true) as Hw.
      { destruct sign; cbn; now rewrite Hne, Hd. }
      destruct (from_string_whole_hex _ _ (fun c H => H) eq_refl Hw)
        as (h & Hh & _ & Hc).
      rewrite Hf in Hh. injection Hh as <-. exact Hc.
    - destruct (strip_pairs_zeros (even_pad d)) as (z & Hz & Hp).
      unfold even_pad in Hp |- *.
      destruct (Nat.odd (String.length d)).
      + exists z. now split.
      + exists (String "0" z). split; [exact Hz|].
        cbn [append]. now rewrite <- Hp. }
  split.
  { intros E this other r [H|[H|[H|[H|[H|H]]]]];
      try (eapply binary_canonical; exact H).
    eapply div_canonical; exact H. }
  split.
  { intros E this n r [H|[H|H]]; eapply unary_canonical; exact H. }
  exact abs_canonical.
Qed.

Lemma canonical_form_invariant_witness :
  clean (VString "-0x000abc") = true /\
  from (VString "-0x000abc") = Ok (mkBigNumber "-0x0abc") /\
  canonical (toHexString (mkBigNumber "-0x0abc")) = true.
Proof.
  split; [reflexivity|]. split; [reflexivity|].
  apply (proj1 canonical_form_invariant (VString "-0x000abc")
               (mkBigNumber "-0x0abc")); reflexivity.
Defined.

(** ** Strings of no recognised shape (C2) *)

(** With the hex pattern searched anywhere in the string, as the source
    tests it: a string that matches neither pattern is refused with
    InvalidArgument, so are ["12a"], ["--0x04"] and [{}], and every string
    that is accepted matches one of the two. *)
Lemma unmatched_strings_rejected :
  (forall s,
      matches_decimal s = false -> matches_hex s = false ->
      from (VString s) =
      Err (InvalidArgument "invalid BigNumber string" "value" (VString s))) /\
  is_InvalidArgument (from (VString "12a")) = true /\
  is_InvalidArgument (from (VString "--0x04")) = true /\
  is_InvalidArgument (from (VObject (mkObject false None None))) = true /\
  (forall s b,
      from (VString s) = Ok b ->
      matches_decimal s = true \/ matches_hex s = true).
Proof.
  split.
  { intros s Hd Hh. cbn [from]. unfold from_string. now rewrite Hh, Hd. }
  repeat (split; [reflexivity|]).
  intros s b. cbn [from]. unfold from_string.
  destruct (matches_hex s); [now right|].
  destruct (matches_decimal s); [now left|]. discriminate.
Qed.

(** C2. The code departs from the claim at ["zz0x1"]: the string is neither
    a decimal string nor a hex literal [-?0x[0-9a-f]+] (digits in either
    case), yet the hex pattern, which has no anchors, finds [0x1] inside it,
    and the string is accepted and stored as ["0x0zz0x1"]. *)
Theorem hex_pattern_unanchored_accepts :
  matches_decimal "zz0x1" = false /\
  whole_hex JS.is_hex_i "zz0x1" = false /\
  from (VString "zz0x1") = Ok (mkBigNumber "0x0zz0x1").
Proof. repeat split. Qed.

(** ** Idempotence of the normaliser (C6) *)

(** C6. Normalising the output of a normalisation returns it unchanged, and
    so does normalising any string that is already canonical. *)
Theorem toHex_idempotent :
  (forall s h, toHex s = Ok h -> toHex h = Ok h) /\
  (forall h, canonical h = true -> toHex h = Ok h).
Proof.
  split; [exact toHex_fixed | exact (canonical_fixed JS.is_lower_hex)].
Qed.

Lemma toHex_idempotent_witness :
  toHex "-000f" = Ok "-0x0f" /\ toHex "-0x0f" = Ok "-0x0f".
Proof.
  split; [reflexivity|].
  apply (proj1 toHex_idempotent "-000f" "-0x0f"). reflexivity.
Defined.

(** ** Zero (C7) *)

Lemma toHex_not_negative_zero (s h : string) :
  toHex s = Ok h -> h <> "-0x00".
Proof.
  assert (forall t, toHex_unsigned t <> "-0x00") as Hu.
  { intros t Ht. pose proof (toHex_unsigned_shape t) as Hc.
    apply canonical_unsigned_unsigned in Hc. rewrite Ht in Hc. discriminate. }
  destruct s as [|a r].
  - intros [= <-]. apply Hu.
  - destruct (Ascii.eqb_spec a "-") as [->|Ha].
    + destruct (JS.first_is "-" r) eqn:Hr.
      * rewrite toHex_double_sign by assumption. discriminate.
      * rewrite toHex_neg by assumption.
        destruct (String.eqb_spec (toHex_unsigned r) "0x00") as [Hz|Hz];
          intros [= <-]; [discriminate|].
        intros [= H]. now apply Hz.
    + rewrite toHex_nonneg by (simpl; now apply Ascii.eqb_neq).
      intros [= <-]. apply Hu.
Qed.

Lemma from_string_not_negative_zero (s : string) (b : BigNumber) :
  from_string s = Ok b -> toHexString b <> "-0x00".
Proof.
  unfold from_string. destruct (matches_hex s).
  - destruct (toHex s) as [h|] eqn:Hh; [|discriminate].
    intros [= <-]. now apply toHex_not_negative_zero in Hh.
  - destruct (matches_decimal s); [|discriminate].
    destruct (BN.of_dec s) as [x|]; [|discriminate].
    cbn [engine bind]. unfold toHex_BN.
    destruct (toHex (BN.toString16 x)) as [h|] eqn:Hh; [|discriminate].
    intros [= <-]. now apply toHex_not_negative_zero in Hh.
Qed.

(** Whatever is not an instance reaches the dispatcher as a string. *)
Lemma from_through_string (v : value) (b : BigNumber) :
  (forall b', v <> VBigNumber b') ->
  from v = Ok b -> exists s, from_string s = Ok b.
Proof.
  intro Hv. destruct v as [|b'|s|n|z|bytes|o|bytes o];
    try (cbn [from]; try discriminate; eauto; fail).
  - now destruct (Hv b').
  - cbn [from]. destruct n as [z| | |neg]; try discriminate; eauto.
    destruct (_ || _); [discriminate | eauto].
  - intro Hb. apply from_object_accepted in Hb as (s & _ & Hb). eauto.
Qed.

(** C7. [from("0")], [from("-0")], [from("0x0")] and [from("0x00")] all
    store ["0x00"], and no instance that was ever constructed stores
    ["-0x00"]. *)
Theorem zero_canonicalization :
  hexOf (from (VString "0")) = Ok "0x00" /\
  hexOf (from (VString "-0")) = Ok "0x00" /\
  hexOf (from (VString "0x0")) = Ok "0x00" /\
  hexOf (from (VString "0x00")) = Ok "0x00" /\
  (forall b, constructed b -> toHexString b <> "-0x00").
Proof.
  repeat (split; [reflexivity|]).
  intros b Hb. induction Hb as [v b Hv IH Hf].
  destruct v as [|b'|s|n|z|bytes|o|bytes o];
    try (apply from_through_string in Hf as [t Ht];
         [now apply from_string_not_negative_zero in Ht | discriminate]).
  cbn [from] in Hf. injection Hf as <-. now apply IH.
Qed.

Lemma zero_canonicalization_witness :
  constructed (mkBigNumber "0x00") /\
  toHexString (mkBigNumber "0x00") <> "-0x00".
Proof.
  assert (constructed (mkBigNumber "0x00")) as H.
  { apply (constructed_by_from (VString "-0x0")); [discriminate|reflexivity]. }
  split; [exact H|].
  exact (proj2 (proj2 (proj2 (proj2 zero_canonicalization))) _ H).
Defined.

(** ** Decoding an instance *)

Lemma toBN_instance (b : BigNumber) (z : Z) :
  decode (toHexString b) = Some z -> toBN (VBigNumber b) = Ok z.
Proof.
  intro H. rewrite toBN_decode. cbn [from bind]. now rewrite H.
Qed.

Lemma toBN_instance_error (b : BigNumber) (e : error) :
  toBN (VBigNumber b) = Err e -> e = EngineFault.
Proof.
  rewrite toBN_decode. cbn [from bind].
  destruct (decode (toHexString b)); cbn [engine]; congruence.
Qed.

Lemma toBN_canonical (b : BigNumber) :
  canonical (toHexString b) = true ->
  exists z, toBN (VBigNumber b) = Ok z /\ decode (toHexString b) = Some z.
Proof.
  intro Hc. destruct (canonical_decodes _ (canonical_is_hex _ Hc)) as [z Hz].
  exists z. split; [now apply toBN_instance | exact Hz].
Qed.

(** ** Comparisons (C3) *)





(** ** The safe-integer boundary (C4) *)

Lemma MAX_SAFE_value : MAX_SAFE = (2 ^ 53 - 1)%Z.
Proof. reflexivity. Qed.

Lemma from_number_in_range (z : Z) :
  (Z.abs z < 2 ^ 53 - 1)%Z ->
  from (VNumber (NumInt z)) = from_string (BN.toString10 z).
Proof.
  intro H. cbn [from]. rewrite MAX_SAFE_value.
  destruct (Z.geb_spec z (2 ^ 53 - 1)); [lia|].
  destruct (Z.leb_spec z (- (2 ^ 53 - 1))); [lia|]. reflexivity.
Qed.

Lemma from_number_out_of_range (z : Z) :
  (Z.abs z >= 2 ^ 53 - 1)%Z ->
  from (VNumber (NumInt z)) = Err (overflow (VNumber (NumInt z))).
Proof.
  intro H. cbn [from]. rewrite MAX_SAFE_value.
  destruct (Z.geb_spec z (2 ^ 53 - 1)); [reflexivity|].
  destruct (Z.leb_spec z (- (2 ^ 53 - 1))); [reflexivity|]. lia.
Qed.

(** C4. An integral number is refused with the overflow fault exactly when
    its magnitude is at least 2^53 - 1, and is accepted, with its value,
    otherwise; [from(2**53)] overflows and [from(2**53 - 2)] succeeds. *)
Theorem safe_integer_boundary :
  (forall z,
      from (VNumber (NumInt z)) = Err (overflow (VNumber (NumInt z))) <->
      (Z.abs z >= 2 ^ 53 - 1)%Z) /\
  (forall z,
      (Z.abs z < 2 ^ 53 - 1)%Z ->
      exists b,
        from (VNumber (NumInt z)) = Ok b /\ toBN (VBigNumber b) = Ok z) /\
  from (VNumber (NumInt (2 ^ 53))) =
    Err (overflow (VNumber (NumInt (2 ^ 53)))) /\
  hexOf (from (VNumber (NumInt (2 ^ 53 - 2)))) = Ok "0x1ffffffffffffe".
Proof.
  assert (forall z, (Z.abs z < 2 ^ 53 - 1)%Z ->
          exists b, from (VNumber (NumInt z)) = Ok b /\
                    toBN (VBigNumber b) = Ok z) as Hin.
  { intros z Hz. rewrite (from_number_in_range z Hz).
    destruct (from_string_toString10 z) as (h & -> & _ & Hd).
    exists (mkBigNumber h). split; [reflexivity | now apply toBN_instance]. }
  split; [|split; [exact Hin | split; reflexivity]].
  intro z. split.
  - intro H. destruct (Z_lt_ge_dec (Z.abs z) (2 ^ 53 - 1)) as [Hlt|]; [|easy].
    destruct (Hin z Hlt) as (b & Hb & _). congruence.
  - apply from_number_out_of_range.
Qed.

Lemma safe_integer_boundary_witness :
  (Z.abs (-255) < 2 ^ 53 - 1)%Z /\
  exists b,
    from (VNumber (NumInt (-255))) = Ok b /\ toBN (VBigNumber b) = Ok (-255)%Z.
Proof.
  split; [reflexivity|].
  apply (proj1 (proj2 safe_integer_boundary) (-255)%Z). reflexivity.
Defined.

(** ** The decimal round trip (C5) *)

Lemma dec_render_not_signed_zero (u : Decimal.uint) :
  String.eqb (DecimalString.NilEmpty.string_of_uint u) "-0" = false.
Proof. destruct u; reflexivity. Qed.

Lemma dec_render_unsigned (u : Decimal.uint) :
  strip_leading_zeros (DecimalString.NilEmpty.string_of_uint u) =
  strip_zeros (DecimalString.NilEmpty.string_of_uint u).
Proof. destruct u; reflexivity. Qed.

Lemma dec_render_zero_inv (u : Decimal.uint) :
  DecimalString.NilEmpty.string_of_uint u = "0" ->
  u = Decimal.D0 Decimal.Nil.
Proof.
  intro H. apply (f_equal DecimalString.NilEmpty.uint_of_string) in H.
  rewrite DecimalString.NilEmpty.usu in H. now injection H.
Qed.

(** What the engine renders after parsing a decimal string. *)
Lemma render_parsed_decimal (sign : bool) (u : Decimal.uint) :
  u <> Decimal.Nil ->
  DecimalString.NilEmpty.string_of_int
    (Decimal.norm (if sign then Decimal.Neg u else Decimal.Pos u)) =
  strip_leading_zeros_unsigned_zero
    (if sign then String "-" (DecimalString.NilEmpty.string_of_uint u)
     else DecimalString.NilEmpty.string_of_uint u).
Proof.
  intro Hne. pose proof (dec_render_unorm u Hne) as Hs.
  unfold strip_leading_zeros_unsigned_zero. destruct sign.
  - cbn [strip_leading_zeros]. rewrite Ascii.eqb_refl, <- Hs.
    cbn [Decimal.norm].
    destruct (Decimal.uint_eq_dec (Decimal.nzhead u) Decimal.Nil) as [Hz|Hnz].
    + unfold Decimal.unorm. rewrite Hz. reflexivity.
    + rewrite (DecimalFacts.unorm_nzhead u Hnz).
      assert (String.eqb
                (String "-" (DecimalString.NilEmpty.string_of_uint
                               (Decimal.nzhead u))) "-0" = false) as ->.
      { apply String.eqb_neq. intros [= H].
        apply dec_render_zero_inv in H.
        now apply (DecimalFacts.nzhead_nonzero u Decimal.Nil). }
      destruct (Decimal.nzhead u); try reflexivity. now destruct Hnz.
  - rewrite dec_render_unsigned, <- Hs, dec_render_not_signed_zero.
    reflexivity.
Qed.

(** C5, as stated, fails: ["-0"] has no superfluous leading zero, and
    [from("-0").toString()] is ["0"]. *)
Lemma decimal_round_trip_negative_zero_counterexample :
  exists b r,
    matches_decimal "-0" = true /\
    from (VString "-0") = Ok b /\ toString [] b = Ok r /\
    String.eqb r (strip_leading_zeros "-0") = false.
Proof.
  exists (mkBigNumber "0x00"), "0". repeat split; reflexivity.
Qed.

(** C5 (amended). For every decimal string [d] matching [^-?[0-9]+$],
    [from(d).toString()] is [d] with its superfluous leading zeros stripped
    and, when the value is zero, without its minus sign. *)
Theorem decimal_round_trip :
  forall d,
    matches_decimal d = true ->
    exists b,
      from (VString d) = Ok b /\
      toString [] b = Ok (strip_leading_zeros_unsigned_zero d).
Proof.
  intros d Hm. pose proof Hm as Hi.
  apply matches_decimal_inv in Hi as (sign & ds & -> & Hne & Hd).
  destruct (of_dec_matches sign ds Hne Hd) as (u & Hu & Hz).
  destruct (from_string_decimal _ _ Hm Hz) as (h & Hh & _ & Hdec).
  exists (mkBigNumber h). split; [exact Hh|].
  cbn [toString]. rewrite (toBN_instance (mkBigNumber h) _ Hdec).
  cbn [bind]. f_equal. unfold BN.toString10. rewrite DecimalZ.to_of.
  assert (u <> Decimal.Nil) as Hnil by (intros ->; subst ds; discriminate).
  rewrite (render_parsed_decimal sign u Hnil), Hu. reflexivity.
Qed.

Lemma decimal_round_trip_witness :
  matches_decimal "-000120" = true /\
  exists b,
    from (VString "-000120") = Ok b /\ toString [] b = Ok "-120".
Proof.
  split; [reflexivity|].
  apply (decimal_round_trip "-000120"). reflexivity.
Defined.

(** ** Division by zero (C8) *)

Lemma binary_not_numeric_fault {E : BN.Engine}
      (op : BN.t -> BN.t -> option BN.t) (this o : BigNumber)
      (other : value) (y : Z) (e : error) :
  from other = Ok o -> toBN (VBigNumber o) = Ok y ->
  binary op this other = Err e -> e = EngineFault.
Proof.
  intros Ho Hy. unfold binary.
  destruct (toBN (VBigNumber this)) as [x|e'] eqn:Hx.
  - assert (toBN other = Ok y) as ->.
    { rewrite toBN_decode in Hy |- *. rewrite Ho. exact Hy. }
    cbn [bind]. destruct (op x y) as [z|]; cbn [engine bind].
    + destruct (toBigNumber_spec z) as (h & -> & _). discriminate.
    + congruence.
  - cbn [bind]. intros [= <-]. now apply toBN_instance_error in Hx.
Qed.

Lemma from_string_error (s : string) (e : error) :
  from_string s = Err e -> exists m n v, e = InvalidArgument m n v.
Proof.
  unfold from_string. destruct (matches_hex s).
  - destruct (toHex_fails_or_returns s) as [[h ->]|[v ->]]; cbn [bind].
    + discriminate.
    + intros [= <-]. eauto.
  - destruct (matches_decimal s) eqn:Hm.
    + pose proof Hm as Hi.
      apply matches_decimal_inv in Hi as (sign & d & -> & Hne & Hd).
      destruct (of_dec_matches sign d Hne Hd) as (u & _ & Hz).
      destruct (from_string_decimal _ _ Hm Hz) as (h & Hh & _).
      unfold from_string in Hh.
      rewrite (matches_decimal_not_hex _ Hm), Hm in Hh. rewrite Hh.
      discriminate.
    + intros [= <-]. unfold throwArgumentError. eauto.
Qed.

(** [BigNumber.from] never fails with the division-by-zero fault. *)
Lemma from_error_not_division (v : value) :
  from v <> Err division_by_zero.
Proof.
  assert (forall s, from_string s <> Err division_by_zero) as Hs.
  { intros s H. apply from_string_error in H as (m & n & w & H).
    discriminate. }
  destruct v as [|b|s|n|z|bytes|o|bytes o]; cbn [from];
    try discriminate; try apply Hs.
  - destruct n as [z| | |neg]; try discriminate; try apply Hs.
    destruct (_ || _); [discriminate | apply Hs].
  - unfold from_toHexString.
    destruct (obj_hex o) as [h|]; [destruct (_ && _); [apply Hs|]|];
      destruct (obj_toHexString o) as [[]|];
      try discriminate; apply Hs.
Qed.

(** C8, as stated, fails: the string ["0x"] is approved by
    [isBigNumberish] and normalised by [toHex] to ["0x00"], yet
    [BigNumber.from] refuses it, so dividing by it fails with
    InvalidArgument and not with the division-by-zero fault. *)
Lemma division_by_refused_zero_counterexample :
  isBigNumberish (VString "0x") = true /\
  toHex "0x" = Ok "0x00" /\
  div (E := BN.exact) (mkBigNumber "0x01") (VString "0x") =
  Err (InvalidArgument "invalid BigNumber string" "value" (VString "0x")).
Proof. repeat split. Qed.

(** C8 (amended). Whatever the engine, for every instance [a] and every
    value [b], [a.div(b)] fails with the division-by-zero numeric fault of
    operation ["div"] exactly when [BigNumber.from(b)] succeeds and the
    instance it returns is zero; it does so whenever the stored string of
    that instance is ["0x00"], which for a canonical stored string is what
    being zero means. When [BigNumber.from(b)] fails, [a.div(b)] fails with
    the same error. The engine's own division is never reached in either
    case, and [from(1).div(from(0))] fails with the fault. *)
Theorem division_by_zero_fault :
  (forall (E : BN.Engine) this other,
      div this other = Err division_by_zero <->
      exists o, from other = Ok o /\ isZero o = Ok true) /\
  (forall (E : BN.Engine) this other o,
      from other = Ok o -> toHexString o = "0x00" ->
      div this other = Err division_by_zero) /\
  (forall o,
      canonical (toHexString o) = true ->
      (isZero o = Ok true <-> toHexString o = "0x00")) /\
  (forall (E : BN.Engine) this other e,
      from other = Err e -> div this other = Err e) /\
  (forall E : BN.Engine,
      (let* one := from (VNumber (NumInt 1)) in
       let* zero := from (VNumber (NumInt 0)) in
       div one (VBigNumber zero)) = Err division_by_zero).
Proof.
  assert (forall (E : BN.Engine) this other o,
             from other = Ok o -> isZero o = Ok true ->
             div this other = Err division_by_zero) as Hzero.
  { intros E this other o Ho Hz. unfold div. rewrite Ho. cbn [bind].
    rewrite Hz. reflexivity. }
  split; [|split; [|split; [|split]]].
  - intros E this other. split.
    + unfold div. destruct (from other) as [o|e] eqn:Ho; cbn [bind].
      * unfold isZero.
        destruct (toBN (VBigNumber o)) as [y|e] eqn:Hy; cbn [bind].
        -- destruct (BN.isZero y) eqn:Hz.
           ++ intros _. exists o. split; [reflexivity|].
              now rewrite Hy; cbn [bind]; rewrite Hz.
           ++ intro H.
              apply (binary_not_numeric_fault BN.div this o other y _ Ho Hy)
                in H. discriminate.
        -- intros [= ->]. apply toBN_instance_error in Hy. discriminate.
      * intros [= ->]. now destruct (from_error_not_division other).
    + intros (o & Ho & Hz). now apply (Hzero E this other o).
  - intros E this other o Ho Hh. apply (Hzero E this other o Ho).
    unfold isZero. rewrite (toBN_instance o 0%Z); [reflexivity|].
    now rewrite Hh.
  - intros o Hc. destruct (toBN_canonical _ Hc) as (z & Hz & Hd).
    unfold isZero. rewrite Hz. cbn [bind]. unfold BN.isZero. split.
    + intros [= H]. apply Z.eqb_eq in H. subst z.
      now apply (decode_injective _ "0x00" 0%Z).
    + intro Hh. rewrite Hh in Hd. injection Hd as <-. reflexivity.
  - intros E this other e He. unfold div. now rewrite He.
  - intro E. reflexivity.
Qed.

Lemma division_by_zero_fault_witness :
  from (VString "-0x000") = Ok (mkBigNumber "0x00") /\
  toHexString (mkBigNumber "0x00") = "0x00" /\
  div (mkBigNumber "0x07") (VString "-0x000") = Err division_by_zero.
Proof.
  split; [reflexivity|]. split; [reflexivity|].
  apply (proj1 (proj2 division_by_zero_fault) BN.exact
               (mkBigNumber "0x07") (VString "-0x000")
               (mkBigNumber "0x00")); reflexivity.
Defined.

(** ** Objects with a [_hex] field (C9) *)

(** C9, as stated, fails: the field is handed to the dispatcher and
    normalised, so [{ _hex: "0x0001" }] is stored as ["0x01"]; and a byte
    sequence is recognised before the field is read, so the bytes [[1]]
    with a [_hex] field ["0x02"] are stored as ["0x01"]. *)
Lemma from_object_hex_field_counterexample :
  isHexString "0x0001" = true /\
  from (VObject (mkObject false (Some "0x0001") None)) =
    Ok (mkBigNumber "0x01") /\
  isHexString "0x02" = true /\
  from (VBytesObject [Byte.x01] (mkObject false (Some "0x02") None)) =
    Ok (mkBigNumber "0x01").
Proof. repeat split. Qed.

Lemma isHexString_whole (h : string) :
  isHexString h = true -> String.eqb h "0x" = false ->
  whole_hex JS.is_hex_i h = true.
Proof.
  destruct h as [|a [|b r]]; try discriminate.
  cbn [isHexString]. intros H Hne.
  apply andb_prop in H as [H Hr]. apply andb_prop in H as [Ha Hb].
  apply Ascii.eqb_eq in Ha, Hb. subst.
  cbn [whole_hex hex_literal]. change (Ascii.eqb "0" "-") with false.
  cbv iota. rewrite Hr. destruct r; [discriminate | reflexivity].
Qed.

(** C9 (amended). For every object that is not a BigNumber nor a byte
    sequence and exposes a [_hex] field holding a valid hex string with at
    least one digit, [from(v)] succeeds and is [from(v._hex)]: the stored
    string is the normalised field, and it is the field itself exactly
    when the field is already in canonical form (digits in either case).
    A byte sequence that exposes a [_hex] field as well is constructed from
    its bytes, and the field is not read. *)
Theorem from_object_hex_field :
  (forall o h,
      obj_hex o = Some h ->
      isHexString h = true ->
      String.eqb h "0x" = false ->
      exists b,
        from (VObject o) = Ok b /\
        from (VString h) = Ok b /\
        toHex h = Ok (toHexString b) /\
        (toHexString b = h <-> canonical_with JS.is_hex_i h = true)) /\
  (forall bytes o,
      from (VBytesObject bytes o) = from (VBytes bytes)).
Proof.
  split; [|reflexivity].
  intros o h Ho Hv Hne.
  pose proof (isHexString_whole h Hv Hne) as Hw.
  destruct (from_string_whole_hex _ h (fun c H => H) eq_refl Hw)
    as (n & Hn & Ht & Hc).
  exists (mkBigNumber n). cbn [from toHexString _hex]. rewrite Ho, Hv.
  assert (String.eqb h "" = false) as -> by (destruct h; easy).
  cbn [negb andb]. repeat split; try assumption.
  - now intros <-.
  - intro Hh. apply (canonical_fixed _ _) in Hh. congruence.
Qed.

Lemma from_object_hex_field_witness :
  isHexString "0x0aBc" = true /\
  exists b,
    from (VObject (mkObject false (Some "0x0aBc") None)) = Ok b /\
    toHex "0x0aBc" = Ok (toHexString b).
Proof.
  split; [reflexivity|].
  destruct (proj1 from_object_hex_field
              (mkObject false (Some "0x0aBc") None)
              "0x0aBc" eq_refl eq_refl eq_refl) as (b & Hb & _ & Ht & _).
  exists b. split; assumption.
Defined.

(** ** Bigints (C10) *)

(** C10. For every bigint [z], [from(z)] is [from] of its decimal rendering
    and succeeds with the value [z], whatever its magnitude: 2^53 is
    accepted as a bigint and refused as a number; and [isBigNumberish] is
    true of every bigint. *)
Theorem from_bigint :
  forall z,
    from (VBigInt z) = from (VString (BN.toString10 z)) /\
    (exists b, from (VBigInt z) = Ok b /\ toBN (VBigNumber b) = Ok z) /\
    isBigNumberish (VBigInt z) = true /\
    hexOf (from (VBigInt (2 ^ 53))) = Ok "0x20000000000000" /\
    from (VNumber (NumInt (2 ^ 53))) =
      Err (overflow (VNumber (NumInt (2 ^ 53)))).
Proof.
  intro z. split; [reflexivity|]. split; [|repeat split].
  cbn [from]. destruct (from_string_toString10 z) as (h & -> & _ & Hd).
  exists (mkBigNumber h). split; [reflexivity | now apply toBN_instance].
Qed.

(** ** Further facts about the embedding *)

(** The trimming loop stops because its condition fails, not because the
    bound on its turns is reached. *)
Lemma trim_loop_exit (s : string) :
  Nat.ltb 4 (String.length (toHex_unsigned s)) &&
  String.eqb (JS.substring_upto 4 (toHex_unsigned s)) "0x00" = false.
Proof.
  pose proof (toHex_unsigned_shape s) as Hc.
  apply canonical_unsigned_inv in Hc as (d & -> & Hd).
  unfold canonical_digits in Hd. apply andb_prop in Hd as [_ Hmin].
  destruct d as [|a [|b [|c r]]]; try reflexivity.
  unfold JS.substring_upto in *. simpl in *.
  destruct (Ascii.eqb a "0"), (Ascii.eqb b "0"); simpl in *;
    try discriminate; reflexivity.
Qed.

(** The hex pattern of the dispatcher is found exactly in the strings that
    contain [0x] (in either case of the [x]) followed by a hex digit. *)
Lemma matches_hex_iff (s : string) :
  matches_hex s = true <->
  exists pre x c post,
    s = pre ++ String "0" (String x (String c post)) /\
    JS.is_x_i x = true /\ JS.is_hex_i c = true.
Proof.
  assert (forall t, hex_literal_here t = true <->
          exists x c post, t = String "0" (String x (String c post)) /\
                           JS.is_x_i x = true /\ JS.is_hex_i c = true) as Hl.
  { intro t. split.
    - destruct t as [|a [|x [|c post]]]; try discriminate.
      cbn [hex_literal_here]. intro H.
      apply andb_prop in H as [H Hc]. apply andb_prop in H as [Ha Hx].
      apply Ascii.eqb_eq in Ha. subst. now exists x, c, post.
    - intros (x & c & post & -> & Hx & Hc).
      cbn [hex_literal_here]. now rewrite Hx, Hc. }
  split.
  - induction s as [|a s IH]; [discriminate|].
    cbn [matches_hex hex_pattern_here]. intro H.
    apply orb_prop in H as [H|H]; [apply orb_prop in H as [H|H]|].
    + apply andb_prop in H as [Ha H]. apply Ascii.eqb_eq in Ha. subst.
      apply Hl in H as (x & c & post & -> & Hx & Hc).
      now exists "-", x, c, post.
    + apply Hl in H as (x & c & post & -> & Hx & Hc).
      now exists "", x, c, post.
    + destruct (IH H) as (pre & x & c & post & -> & Hx & Hc).
      now exists (String a pre), x, c, post.
  - intros (pre & x & c & post & -> & Hx & Hc).
    induction pre as [|a pre IH].
    + cbn [append matches_hex hex_pattern_here].
      assert (hex_literal_here (String "0" (String x (String c post))) = true)
        as -> by (apply Hl; now exists x, c, post).
      now rewrite orb_true_r.
    + cbn [append matches_hex]. rewrite IH. apply orb_true_r.
Qed.

(** The examples of the specification. *)

Example uniqueness_across_shapes :
  hexOf (from (VString "255")) = Ok "0xff" /\
  hexOf (from (VString "0xff")) = Ok "0xff" /\
  hexOf (from (VString "0x0ff")) = Ok "0xff" /\
  hexOf (from (VBytes [Byte.xff])) = Ok "0xff" /\
  hexOf (from (VNumber (NumInt 255))) = Ok "0xff".
Proof. repeat split. Qed.

Example sign_handling :
  hexOf (from (VString "-1")) = Ok "-0x01" /\
  hexOf (let* b := from (VString "-1") in abs b) = Ok "0x01".
Proof. split; reflexivity. Qed.

Example arithmetic_closure :
  hexOf (add (mkBigNumber "0x05") (VNumber (NumInt 3))) = Ok "0x08" /\
  hexOf (sub (mkBigNumber "0x0a") (VNumber (NumInt 20))) = Ok "-0x0a" /\
  hexOf (mod_ (mkBigNumber "0x07") (VNumber (NumInt 3))) = Ok "0x01".
Proof. repeat split. Qed.

(** * Further properties of the operations *)

(** ** Encoding and decoding an engine integer *)

(** Every engine integer is encoded as an instance in canonical form, and
    decoding that instance gives the integer back. *)
Theorem toBN_toBigNumber :
  forall z,
    exists b,
      toBigNumber z = Ok b /\
      canonical (toHexString b) = true /\
      toBN (VBigNumber b) = Ok z.
Proof.
  intro z. destruct (toBigNumber_spec z) as (h & Hb & Hc & Hd).
  exists (mkBigNumber h). repeat split; auto. now apply toBN_instance.
Qed.

(** An instance in canonical form decodes to an integer whose encoding is
    the instance itself. *)
Theorem toBigNumber_toBN :
  forall b,
    canonical (toHexString b) = true ->
    exists z, toBN (VBigNumber b) = Ok z /\ toBigNumber z = Ok b.
Proof.
  intros [h] Hc. cbn [toHexString _hex] in Hc.
  destruct (toBN_canonical (mkBigNumber h) Hc) as (z & Hz & Hd).
  exists z. split; [exact Hz|].
  unfold toBigNumber. rewrite (render_decode _ _ Hc Hd). cbn [bind from].
  apply from_string_canonical. now apply canonical_is_hex.
Qed.

Lemma toBigNumber_toBN_witness :
  canonical (toHexString (mkBigNumber "-0x01ff")) = true /\
  exists z,
    toBN (VBigNumber (mkBigNumber "-0x01ff")) = Ok z /\
    toBigNumber z = Ok (mkBigNumber "-0x01ff").
Proof.
  split; [reflexivity|].
  apply (toBigNumber_toBN (mkBigNumber "-0x01ff")). reflexivity.
Defined.

(** ** What the arithmetic wrappers return *)

Lemma toBigNumber_value (z : Z) :
  exists r,
    toBigNumber z = Ok r /\
    canonical (toHexString r) = true /\ toBN (VBigNumber r) = Ok z.
Proof.
  destruct (toBigNumber_spec z) as (h & Hb & Hc & Hd).
  exists (mkBigNumber h). repeat split; auto. now apply toBN_instance.
Qed.

Lemma toBN_other_instance (other : value) (y : Z) :
  toBN other = Ok y ->
  exists o, from other = Ok o /\ toBN (VBigNumber o) = Ok y.
Proof.
  rewrite toBN_decode. destruct (from other) as [o|] eqn:Ho; [|discriminate].
  cbn [bind]. intro H. exists o. split; [reflexivity|].
  rewrite toBN_decode. exact H.
Qed.

Lemma binary_value {E : BN.Engine} (op : BN.t -> BN.t -> option BN.t)
      (this : BigNumber) (other : value) (x y z : Z) :
  toBN (VBigNumber this) = Ok x -> toBN other = Ok y -> op x y = Some z ->
  exists r,
    binary op this other = Ok r /\
    canonical (toHexString r) = true /\ toBN (VBigNumber r) = Ok z.
Proof.
  intros Hx Hy Hz. unfold binary. rewrite Hx, Hy. cbn [bind].
  rewrite Hz. cbn [engine bind]. apply toBigNumber_value.
Qed.

Lemma unary_value {E : BN.Engine} (op : BN.t -> Z -> option BN.t)
      (this : BigNumber) (n x z : Z) :
  toBN (VBigNumber this) = Ok x -> op x n = Some z ->
  exists r,
    unary op this n = Ok r /\
    canonical (toHexString r) = true /\ toBN (VBigNumber r) = Ok z.
Proof.
  intros Hx Hz. unfold unary. rewrite Hx. cbn [bind].
  rewrite Hz. cbn [engine bind]. apply toBigNumber_value.
Qed.

Lemma div_value {E : BN.Engine}
      (this : BigNumber) (other : value) (x y z : Z) :
  toBN (VBigNumber this) = Ok x -> toBN other = Ok y ->
  y <> 0%Z -> BN.div x y = Some z ->
  exists r,
    div this other = Ok r /\
    canonical (toHexString r) = true /\ toBN (VBigNumber r) = Ok z.
Proof.
  intros Hx Hy Hne Hz.
  destruct (toBN_other_instance _ _ Hy) as (o & Ho & Hoy).
  unfold div. rewrite Ho. cbn [bind]. unfold isZero. rewrite Hoy.
  cbn [bind]. unfold BN.isZero.
  destruct (Z.eqb_spec y 0) as [|_]; [contradiction|].
  now apply binary_value with (x := x) (y := y).
Qed.

(** Whatever the engine, when both operands decode, each wrapper returns an
    instance in canonical form that decodes to the engine's result on the
    decoded operands; [div] does so when the divisor is not zero. *)
Theorem operations_return_engine_result :
  forall (E : BN.Engine) this other x y,
    toBN (VBigNumber this) = Ok x ->
    toBN other = Ok y ->
    let returns (r : result BigNumber) (z : Z) :=
      exists b,
        r = Ok b /\ canonical (toHexString b) = true /\
        toBN (VBigNumber b) = Ok z in
    (forall z, BN.add x y = Some z -> returns (add this other) z) /\
    (forall z, BN.sub x y = Some z -> returns (sub this other) z) /\
    (forall z, BN.mul x y = Some z -> returns (mul this other) z) /\
    (forall z, BN.mod_ x y = Some z -> returns (mod_ this other) z) /\
    (forall z, BN.pow x y = Some z -> returns (pow this other) z) /\
    (forall z, y <> 0%Z -> BN.div x y = Some z ->
               returns (div this other) z) /\
    (forall n z, BN.maskn x n = Some z -> returns (maskn this n) z) /\
    (forall n z, BN.toTwos x n = Some z -> returns (toTwos this n) z) /\
    (forall n z, BN.fromTwos x n = Some z -> returns (fromTwos this n) z).
Proof.
  intros E this other x y Hx Hy returns. unfold returns.
  repeat split; intros;
    try (eapply binary_value; eassumption);
    try (eapply unary_value; eassumption).
  eapply div_value; eassumption.
Qed.

Lemma operations_return_engine_result_witness :
  toBN (VBigNumber (mkBigNumber "0x0a")) = Ok 10%Z /\
  toBN (VString "-20") = Ok (-20)%Z /\
  exists b,
    mul (mkBigNumber "0x0a") (VString "-20") = Ok b /\
    canonical (toHexString b) = true /\
    toBN (VBigNumber b) = Ok (-200)%Z.
Proof.
  split; [reflexivity|]. split; [reflexivity|].
  apply (proj1 (proj2 (proj2
           (operations_return_engine_result BN.exact (mkBigNumber "0x0a")
              (VString "-20") 10%Z (-20)%Z eq_refl eq_refl)))).
  reflexivity.
Defined.

(** ** Where the failures of the wrappers come from *)

Lemma toBN_error (v : value) (e : error) :
  toBN v = Err e -> e = EngineFault \/ from v = Err e.
Proof.
  rewrite toBN_decode. destruct (from v) as [b|e']; cbn [bind].
  - destruct (decode (toHexString b)); cbn [engine]; [discriminate|].
    intros [= <-]. now left.
  - intros [= <-]. now right.
Qed.

Lemma binary_error {E : BN.Engine} (op : BN.t -> BN.t -> option BN.t)
      (this : BigNumber) (other : value) (e : error) :
  binary op this other = Err e -> e = EngineFault \/ from other = Err e.
Proof.
  unfold binary.
  destruct (toBN (VBigNumber this)) as [x|e1] eqn:Hx; cbn [bind].
  - destruct (toBN other) as [y|e2] eqn:Hy; cbn [bind].
    + destruct (op x y) as [z|]; cbn [engine bind].
      * destruct (toBigNumber_spec z) as (h & -> & _). discriminate.
      * intros [= <-]. now left.
    + intros [= <-]. now apply toBN_error.
  - intros [= <-]. left. now apply toBN_instance_error in Hx.
Qed.

Lemma unary_error {E : BN.Engine} (op : BN.t -> Z -> option BN.t)
      (this : BigNumber) (n : Z) (e : error) :
  unary op this n = Err e -> e = EngineFault.
Proof.
  unfold unary.
  destruct (toBN (VBigNumber this)) as [x|e1] eqn:Hx; cbn [bind].
  - destruct (op x n) as [z|]; cbn [engine bind].
    + destruct (toBigNumber_spec z) as (h & -> & _). discriminate.
    + now intros [= <-].
  - intros [= <-]. now apply toBN_instance_error in Hx.
Qed.

(** Whatever the engine, a failure of [add], [sub], [mul], [mod] or [pow]
    is the failure of constructing the other operand or a failure inside
    the engine; [div] can fail, besides, with its division-by-zero fault
    only; [maskn], [toTwos] and [fromTwos] fail inside the engine only.
    In particular [mod] by zero is not reported as a numeric fault. *)
Theorem operations_fail_only_by_operand_or_engine :
  forall (E : BN.Engine) this other n e,
    (add this other = Err e \/ sub this other = Err e \/
     mul this other = Err e \/ mod_ this other = Err e \/
     pow this other = Err e ->
     e = EngineFault \/ from other = Err e) /\
    (div this other = Err e ->
     e = division_by_zero \/ e = EngineFault \/ from other = Err e) /\
    (maskn this n = Err e \/ toTwos this n = Err e \/
     fromTwos this n = Err e ->
     e = EngineFault).
Proof.
  intros E this other n e. split; [|split].
  - intros [H|[H|[H|[H|H]]]]; eapply binary_error; exact H.
  - unfold div. destruct (from other) as [o|e1] eqn:Ho; cbn [bind].
    + unfold isZero.
      destruct (toBN (VBigNumber o)) as [y|e2] eqn:Hy; cbn [bind].
      * destruct (BN.isZero y).
        -- intros [= <-]. now left.
        -- intro H. right. left.
           destruct (binary_error _ _ _ _ H) as [He|He]; [exact He|].
           rewrite Ho in He. discriminate.
      * intros [= <-]. right. left. now apply toBN_instance_error in Hy.
    + intros [= <-]. right. now right.
  - intros [H|[H|H]]; eapply unary_error; exact H.
Qed.

Lemma operations_fail_only_by_operand_or_engine_witness :
  mod_ (mkBigNumber "0x07") (VNumber (NumInt 0)) = Err EngineFault /\
  (EngineFault = EngineFault \/
   from (VNumber (NumInt 0)) = Err EngineFault).
Proof.
  split; [reflexivity|].
  apply (proj1 (operations_fail_only_by_operand_or_engine BN.exact
                  (mkBigNumber "0x07") (VNumber (NumInt 0)) 0%Z EngineFault)).
  right. right. right. left. reflexivity.
Defined.

(** ** The family of comparisons *)

(** When both operands decode, the five comparisons answer, and they are
    consistent: exactly one of [lt], [eq], [gt] is true, [lte] is [lt] or
    [eq], [gte] is [gt] or [eq], and exchanging the operands exchanges [lt]
    and [gt]. *)
Theorem comparisons_consistent :
  forall this other x y,
    toBN (VBigNumber this) = Ok x ->
    toBN other = Ok y ->
    exists (l e g : bool) (o : BigNumber),
      lt this other = Ok l /\ eq this other = Ok e /\
      gt this other = Ok g /\
      lte this other = Ok (l || e) /\ gte this other = Ok (g || e) /\
      (l = true /\ e = false /\ g = false \/
       l = false /\ e = true /\ g = false \/
       l = false /\ e = false /\ g = true) /\
      from other = Ok o /\
      gt o (VBigNumber this) = Ok l /\ lt o (VBigNumber this) = Ok g /\
      eq o (VBigNumber this) = Ok e.
Proof.
  intros this other x y Hx Hy.
  destruct (toBN_other_instance _ _ Hy) as (o & Ho & Hoy).
  exists (x <? y)%Z, (x =? y)%Z, (y <? x)%Z, o.
  unfold lt, eq, gt, lte, gte, compare.
  rewrite Hx, Hy, Hoy. cbn [bind].
  unfold BN.lt, BN.eq, BN.gt, BN.lte, BN.gte.
  rewrite Z.gtb_ltb, Z.geb_leb, (Z.gtb_ltb y x), (Z.eqb_sym y x).
  repeat split; try (f_equal; lia).
  destruct (Z.ltb_spec x y), (Z.eqb_spec x y), (Z.ltb_spec y x);
    try lia; auto.
Qed.

Lemma comparisons_consistent_witness :
  toBN (VBigNumber (mkBigNumber "-0x02")) = Ok (-2)%Z /\
  toBN (VNumber (NumInt 7)) = Ok 7%Z /\
  exists (l e g : bool) (o : BigNumber),
    lt (mkBigNumber "-0x02") (VNumber (NumInt 7)) = Ok l /\
    lte (mkBigNumber "-0x02") (VNumber (NumInt 7)) = Ok (l || e) /\
    from (VNumber (NumInt 7)) = Ok o /\
    gt o (VBigNumber (mkBigNumber "-0x02")) = Ok l.
Proof.
  split; [reflexivity|]. split; [reflexivity|].
  destruct (comparisons_consistent (mkBigNumber "-0x02") (VNumber (NumInt 7))
              (-2)%Z 7%Z eq_refl eq_refl)
    as (l & e & g & o & Hl & _ & _ & Hle & _ & _ & Ho & Hg & _).
  exists l, e, g, o. auto.
Defined.

(** ** The absolute value *)

Lemma digit_value_nonneg (d : string) (m : Z) :
  digit_value d = Some m -> (0 <= m)%Z.
Proof.
  unfold digit_value. destruct (BN.hex_uint_of_string d); [|discriminate].
  intros [= <-]. unfold Z.of_hex_uint. apply N2Z.is_nonneg.
Qed.

(** On an instance in canonical form, [abs] returns the instance, in
    canonical form, of the absolute value, and [abs] of that is itself. *)
Theorem abs_is_absolute_value :
  forall this z,
    canonical (toHexString this) = true ->
    toBN (VBigNumber this) = Ok z ->
    exists r,
      abs this = Ok r /\
      canonical (toHexString r) = true /\
      toBN (VBigNumber r) = Ok (Z.abs z) /\
      abs r = Ok r.
Proof.
  intros [h] z Hc Hz. cbn [toHexString _hex] in Hc.
  rewrite toBN_decode in Hz. cbn [from bind toHexString _hex] in Hz.
  pose proof Hc as Hi.
  apply canonical_with_inv in Hi as (sign & d & -> & Hd & _).
  pose proof (canonical_digits_lower _ Hd) as Hlow.
  pose proof (forallb_weaken _ _ _ lower_hex_is_hex Hlow) as Hhex.
  rewrite (decode_canonical _ _ Hhex) in Hz.
  destruct (digit_value d) as [m|] eqn:Hm;
    [|destruct sign; discriminate].
  pose proof (digit_value_nonneg _ _ Hm) as Hpos.
  assert (canonical ("0x" ++ d) = true) as Hu.
  { unfold canonical, canonical_with.
    change (JS.first_is "-" ("0x" ++ d)) with false. cbv iota.
    now rewrite canonical_unsigned_prefixed. }
  assert (toBN (VBigNumber (mkBigNumber ("0x" ++ d))) = Ok m) as Hdm.
  { apply toBN_instance. cbn [toHexString _hex].
    rewrite (decode_canonical false _ Hhex). exact Hm. }
  assert (abs (mkBigNumber ("0x" ++ d)) = Ok (mkBigNumber ("0x" ++ d)))
    as Hfix by reflexivity.
  destruct sign; cbn in Hz; injection Hz as <-.
  - exists (mkBigNumber ("0x" ++ d)). repeat split; auto.
    + unfold abs. cbn [_hex JS.first_is]. rewrite Ascii.eqb_refl.
      rewrite substring_from_1. cbn [from].
      apply from_string_canonical. now apply canonical_is_hex.
    + rewrite Hdm. f_equal. lia.
  - exists (mkBigNumber ("0x" ++ d)). repeat split; auto.
    rewrite Hdm. f_equal. lia.
Qed.

Lemma abs_is_absolute_value_witness :
  canonical (toHexString (mkBigNumber "-0x0a")) = true /\
  toBN (VBigNumber (mkBigNumber "-0x0a")) = Ok (-10)%Z /\
  exists r,
    abs (mkBigNumber "-0x0a") = Ok r /\
    toBN (VBigNumber r) = Ok (Z.abs (-10)).
Proof.
  split; [reflexivity|]. split; [reflexivity|].
  destruct (abs_is_absolute_value (mkBigNumber "-0x0a") (-10)%Z
              eq_refl eq_refl) as (r & Hr & _ & Hv & _).
  exists r. auto.
Defined.

(** ** Conversion to a native number *)

(** Whatever the engine's narrowing conversion: an integral number inside
    the safe range that the conversion gives back comes back from
    [from(n).toNumber()]; a value the conversion refuses fails with the
    overflow fault of operation ["toNumber"], carrying the decimal
    rendering of the value. *)
Theorem toNumber_of_from :
  forall (narrow : BN.t -> option number),
    (forall z,
        (Z.abs z < 2 ^ 53 - 1)%Z ->
        narrow z = Some (NumInt z) ->
        exists b,
          from (VNumber (NumInt z)) = Ok b /\
          toNumber narrow b = Ok (NumInt z)) /\
    (forall this z,
        toBN (VBigNumber this) = Ok z ->
        narrow z = None ->
        toNumber narrow this =
        Err (NumericFault "overflow" "toNumber"
               (Some (VString (BN.toString10 z))))).
Proof.
  intro narrow. split.
  - intros z Hz Hn. rewrite (from_number_in_range z Hz).
    destruct (from_string_toString10 z) as (h & -> & _ & Hd).
    exists (mkBigNumber h). split; [reflexivity|].
    unfold toNumber. rewrite (toBN_instance (mkBigNumber h) z Hd).
    cbn [bind]. now rewrite Hn.
  - intros this z Hz Hn. unfold toNumber. rewrite Hz. cbn [bind].
    rewrite Hn. cbn [engine toString]. rewrite Hz. reflexivity.
Qed.

Lemma toNumber_of_from_witness :
  let narrow (x : BN.t) :=
    if (Z.abs x <? 2 ^ 53)%Z then Some (NumInt x) else None in
  toBN (VBigNumber (mkBigNumber "0x20000000000000")) = Ok (2 ^ 53)%Z /\
  narrow (2 ^ 53)%Z = None /\
  toNumber narrow (mkBigNumber "0x20000000000000") =
  Err (NumericFault "overflow" "toNumber"
         (Some (VString "9007199254740992"))).
Proof.
  split; [reflexivity|]. split; [reflexivity|].
  apply (proj2 (toNumber_of_from
                  (fun x => if (Z.abs x <? 2 ^ 53)%Z
                            then Some (NumInt x) else None))
               (mkBigNumber "0x20000000000000") (2 ^ 53)%Z);
    reflexivity.
Defined.

(** ** Reading back what an instance renders *)

(** An instance whose stored string is canonical, with digits in either
    case, is what [BigNumber.from] returns on its [toHexString()]. *)
Theorem from_of_toHexString :
  forall b,
    canonical_with JS.is_hex_i (toHexString b) = true ->
    from (VString (toHexString b)) = Ok b.
Proof.
  intros [h] Hc. cbn [toHexString _hex from] in *.
  now apply from_string_canonical.
Qed.

Lemma from_of_toHexString_witness :
  canonical_with JS.is_hex_i (toHexString (mkBigNumber "-0x0AbC")) = true /\
  from (VString (toHexString (mkBigNumber "-0x0AbC"))) =
  Ok (mkBigNumber "-0x0AbC").
Proof.
  split; [reflexivity|].
  apply (from_of_toHexString (mkBigNumber "-0x0AbC")). reflexivity.
Defined.

(** An instance in canonical form renders as a decimal string that
    [BigNumber.from] reads back as the same instance. *)
Theorem from_of_toString :
  forall b,
    canonical (toHexString b) = true ->
    exists s,
      toString [] b = Ok s /\
      matches_decimal s = true /\
      from (VString s) = Ok b.
Proof.
  intros [h] Hc. cbn [toHexString _hex] in Hc.
  destruct (toBN_canonical (mkBigNumber h) Hc) as (z & Hz & Hd).
  exists (BN.toString10 z). cbn [toString]. rewrite Hz. cbn [bind].
  split; [reflexivity|]. split; [apply toString10_matches|].
  cbn [from]. destruct (from_string_toString10 z) as (h' & -> & Hc' & Hd').
  f_equal. f_equal. cbn [toHexString _hex] in Hd.
  exact (decode_injective _ _ _ Hc' Hc Hd' Hd).
Qed.

Lemma from_of_toString_witness :
  canonical (toHexString (mkBigNumber "-0x01ff")) = true /\
  exists s,
    toString [] (mkBigNumber "-0x01ff") = Ok s /\
    from (VString s) = Ok (mkBigNumber "-0x01ff").
Proof.
  split; [reflexivity|].
  destruct (from_of_toString (mkBigNumber "-0x01ff") eq_refl)
    as (s & Hs & _ & Hf).
  exists s. auto.
Defined.

(** ** Byte sequences *)

Lemma hex_of_bytes_even (bytes : list Byte.byte) :
  Nat.even (String.length (hex_of_bytes bytes)) = true.
Proof.
  induction bytes as [|b r IH]; [reflexivity|].
  cbn [hex_of_bytes String.length]. now rewrite Nat.even_succ_succ.
Qed.

Lemma hex_of_bytes_nonempty (bytes : list Byte.byte) :
  bytes <> [] -> String.eqb (hex_of_bytes bytes) "" = false.
Proof.
  destruct bytes; [now intros [] | reflexivity].
Qed.

Lemma from_string_hexlify (bytes : list Byte.byte) :
  bytes <> [] ->
  from_string (hexlify bytes) =
  Ok (mkBigNumber ("0x" ++ strip_pairs (hex_of_bytes bytes))).
Proof.
  intro Hne.
  pose proof (hexlify_clean bytes Hne) as Hc. unfold clean_string in Hc.
  assert (matches_decimal (hexlify bytes) = false) as Hd by reflexivity.
  rewrite Hd in Hc. cbn [orb] in Hc.
  destruct (from_string_whole_hex _ _ lower_hex_is_hex eq_refl Hc)
    as (h & -> & Ht & _).
  f_equal. f_equal.
  unfold hexlify in Ht. rewrite toHex_nonneg in Ht by reflexivity.
  injection Ht as <-.
  change (String "0" (String "x" (hex_of_bytes bytes)))
    with ("0x" ++ hex_of_bytes bytes).
  rewrite toHex_unsigned_spec, body_prefixed.
  rewrite (hex_of_bytes_nonempty _ Hne). unfold even_pad.
  now rewrite <- Nat.negb_even, hex_of_bytes_even.
Qed.

(** An empty byte sequence is refused with InvalidArgument; every other
    one is accepted and stored unsigned in canonical form; a leading zero
    byte changes nothing; and a sequence that does not start with a zero
    byte is stored as its own hex string. *)
Theorem from_bytes :
  from (VBytes []) =
    Err (InvalidArgument "invalid BigNumber string" "value" (VString "0x")) /\
  (forall bytes,
      bytes <> [] ->
      exists b,
        from (VBytes bytes) = Ok b /\
        canonical (toHexString b) = true /\
        JS.first_is "-" (toHexString b) = false) /\
  (forall bytes,
      bytes <> [] ->
      from (VBytes (Byte.x00 :: bytes)) = from (VBytes bytes)) /\
  (forall x bytes,
      x <> Byte.x00 ->
      from (VBytes (x :: bytes)) = Ok (mkBigNumber (hexlify (x :: bytes)))).
Proof.
  split; [reflexivity|]. split; [|split].
  - intros bytes Hne. cbn [from].
    rewrite (from_string_hexlify bytes Hne).
    eexists. split; [reflexivity|]. split; [|reflexivity].
    apply (from_clean_canonical (VBytes bytes)); [reflexivity|].
    cbn [from]. now apply from_string_hexlify.
  - intros bytes Hne. cbn [from].
    rewrite from_string_hexlify by discriminate.
    rewrite (from_string_hexlify bytes Hne).
    cbn [hex_of_bytes strip_pairs].
    change (hex_char (Byte.to_N Byte.x00 / 16)) with "0"%char.
    change (hex_char (Byte.to_N Byte.x00 mod 16)) with "0"%char.
    rewrite !Ascii.eqb_refl, (hex_of_bytes_nonempty _ Hne). reflexivity.
  - intros x bytes Hx. cbn [from].
    rewrite from_string_hexlify by discriminate.
    unfold hexlify. cbn [hex_of_bytes strip_pairs].
    assert (Ascii.eqb (hex_char (Byte.to_N x / 16)) "0" &&
            Ascii.eqb (hex_char (Byte.to_N x mod 16)) "0" = false) as ->
      by (destruct x; try reflexivity; now destruct Hx).
    reflexivity.
Qed.

Lemma from_bytes_witness :
  [Byte.x01; Byte.xff] <> [] /\
  from (VBytes [Byte.x00; Byte.x01; Byte.xff]) =
  from (VBytes [Byte.x01; Byte.xff]).
Proof.
  split; [discriminate|].
  apply (proj1 (proj2 (proj2 from_bytes)) [Byte.x01; Byte.xff]).
  discriminate.
Defined.

(** ** The normaliser on its own *)

Lemma substring_upto_2 (a b : ascii) (r : string) :
  JS.substring_upto 2 (String a (String b r)) = String a (String b "").
Proof. unfold JS.substring_upto. simpl. now destruct r. Qed.

(** [toHex] fails on exactly the strings that start with two minus signs,
    and then with InvalidArgument ("invalid hex") on the string without its
    first sign. *)
Theorem toHex_fails_on_double_sign :
  forall s,
    is_Ok (toHex s) = negb (String.eqb (JS.substring_upto 2 s) "--") /\
    (is_Ok (toHex s) = false ->
     toHex s =
     Err (InvalidArgument "invalid hex" "value"
            (VString (JS.substring_from 1 s)))).
Proof.
  intro s. destruct s as [|a r]; [split; [reflexivity | discriminate]|].
  destruct (Ascii.eqb_spec a "-") as [->|Ha].
  - destruct (JS.first_is "-" r) eqn:Hr.
    + rewrite toHex_double_sign by assumption. rewrite substring_from_1.
      split; [|reflexivity].
      destruct r as [|b r]; [discriminate|]. cbn in Hr.
      apply Ascii.eqb_eq in Hr. subst.
      rewrite substring_upto_2. reflexivity.
    + rewrite toHex_neg by assumption. split; [|discriminate].
      destruct r as [|b r]; [reflexivity|]. cbn in Hr.
      rewrite substring_upto_2. cbn. rewrite Hr. reflexivity.
  - assert (JS.first_is "-" (String a r) = false) as Hn
      by (simpl; now apply Ascii.eqb_neq).
    rewrite toHex_nonneg by assumption. split; [|discriminate].
    apply Ascii.eqb_neq in Ha.
    destruct r as [|b r]; [cbn; now rewrite Ha|].
    rewrite substring_upto_2. cbn. now rewrite Ha.
Qed.

Lemma toHex_fails_on_double_sign_witness :
  is_Ok (toHex "--0x04") = false /\
  toHex "--0x04" = Err (InvalidArgument "invalid hex" "value" (VString "-0x04")).
Proof.
  split; [reflexivity|].
  apply (proj2 (toHex_fails_on_double_sign "--0x04")). reflexivity.
Defined.

(** On a string of hexadecimal digits, the normal form does not depend on
    the [0x] prefix being there nor on leading zero digits, with or without
    a minus sign. *)
Theorem toHex_ignores_prefix_and_leading_zeros :
  forall d,
    String.eqb d "" = false ->
    JS.forallb JS.is_hex_i d = true ->
    toHex ("0x" ++ d) = toHex d /\
    toHex (String "0" d) = toHex d /\
    toHex ("0x0" ++ d) = toHex d /\
    toHex ("-0x" ++ d) = toHex (String "-" d) /\
    toHex ("-0" ++ d) = toHex (String "-" d).
Proof.
  intros d Hne Hd.
  assert (JS.forallb JS.is_hex_i (String "0" d) = true) as Hd0
    by (cbn [JS.forallb]; now rewrite Hd).
  assert (toHex_unsigned ("0x" ++ d) = toHex_unsigned d) as H1.
  { rewrite !toHex_unsigned_spec, body_prefixed, (hex_body _ Hd).
    reflexivity. }
  assert (toHex_unsigned (String "0" d) = toHex_unsigned d) as H2.
  { rewrite !toHex_unsigned_spec, (hex_body _ Hd), (hex_body _ Hd0), Hne.
    cbn [String.eqb]. now rewrite normal_zero. }
  assert (toHex_unsigned ("0x0" ++ d) = toHex_unsigned d) as H3.
  { change ("0x0" ++ d) with ("0x" ++ String "0" d).
    rewrite !toHex_unsigned_spec, body_prefixed, (hex_body _ Hd), Hne.
    cbn [String.eqb]. now rewrite normal_zero. }
  pose proof (hex_first_not_sign _ Hd) as Hs.
  repeat split.
  - now rewrite !toHex_nonneg, H1.
  - now rewrite !toHex_nonneg, H2.
  - now rewrite !toHex_nonneg, H3.
  - change ("-0x" ++ d) with (String "-" ("0x" ++ d)).
    now rewrite !toHex_neg, H1.
  - change ("-0" ++ d) with (String "-" (String "0" d)).
    now rewrite !toHex_neg, H2.
Qed.

Lemma toHex_ignores_prefix_and_leading_zeros_witness :
  String.eqb "fF" "" = false /\
  JS.forallb JS.is_hex_i "fF" = true /\
  toHex "0x0fF" = toHex "fF".
Proof.
  split; [reflexivity|]. split; [reflexivity|].
  apply (toHex_ignores_prefix_and_leading_zeros "fF"); reflexivity.
Defined.

(** ** The sign *)

(** For a positive integer, the instance of its opposite is stored as a
    minus sign followed by the stored string of the instance of the integer
    itself. *)
Theorem from_opposite :
  forall z,
    (0 < z)%Z ->
    exists h,
      from (VBigInt z) = Ok (mkBigNumber h) /\
      from (VBigInt (- z)) = Ok (mkBigNumber (String "-" h)).
Proof.
  intros z Hz. destruct z as [|p|p]; try lia. clear Hz.
  cbn [from Z.opp].
  unfold from_string.
  rewrite !(matches_decimal_not_hex _ (toString10_matches _)).
  rewrite !toString10_matches, !of_dec_toString10. cbn [engine bind].
  destruct (toHex_BN_spec (Z.pos p)) as (h & Hh & _ & Hd).
  exists h. rewrite Hh. split; [reflexivity|].
  unfold toHex_BN, BN.toString16 in *. cbn [Z.to_hex_int] in *.
  cbn [HexadecimalString.NilEmpty.string_of_int] in *.
  pose proof (hex_first_not_sign _ (hex_render_hex (Pos.to_hex_uint p))) as Hs.
  rewrite toHex_nonneg in Hh by assumption. injection Hh as Hh.
  rewrite toHex_neg by assumption. rewrite Hh.
  destruct (String.eqb_spec h "0x00") as [->|_]; [discriminate|].
  reflexivity.
Qed.

Lemma from_opposite_witness :
  (0 < 255)%Z /\
  exists h,
    from (VBigInt 255) = Ok (mkBigNumber h) /\
    from (VBigInt (- 255)) = Ok (mkBigNumber (String "-" h)).
Proof.
  split; [reflexivity|]. apply (from_opposite 255%Z). reflexivity.
Defined.

(** ** [isBigNumberish] and [BigNumber.from] *)

(** A value that [isBigNumberish] approves and that is not an object is
    accepted by [BigNumber.from], except the string ["0x"], a number whose
    magnitude is at least 2^53 - 1, and an empty byte sequence, which are
    approved and refused. *)
Theorem isBigNumberish_and_from :
  forall v,
    isBigNumberish v = true ->
    is_object v = false ->
    is_Ok (from v) = negb (approved_but_refused v).
Proof.
  intros v Hv Ho.
  destruct v as [|b|s|n|z|bytes|o|bytes o]; try discriminate.
  6: { destruct bytes as [|x r]; [reflexivity|].
       cbn [from approved_but_refused].
       rewrite from_string_hexlify by discriminate. reflexivity. }
  - reflexivity.
  - cbn in Hv. cbn [from approved_but_refused].
    destruct (matches_decimal s) eqn:Hm.
    + pose proof Hm as Hi.
      apply matches_decimal_inv in Hi as (sign & d & Hs & Hne & Hd).
      subst s. destruct (of_dec_matches sign d Hne Hd) as (u & _ & Hz).
      destruct (from_string_decimal _ _ Hm Hz) as (h & -> & _).
      destruct (String.eqb_spec (if sign then String "-" d else d) "0x")
        as [He|_]; [|reflexivity].
      rewrite He in Hm. discriminate.
    + cbn [orb] in Hv. rewrite !orb_false_r in Hv.
      destruct (String.eqb_spec s "0x") as [->|Hne]; [reflexivity|].
      apply String.eqb_neq in Hne.
      pose proof (isHexString_whole s Hv Hne) as Hw.
      destruct (from_string_whole_hex _ s (fun c H => H) eq_refl Hw)
        as (h & -> & _). reflexivity.
  - destruct n as [z| | |neg]; try discriminate.
    cbn [from approved_but_refused].
    destruct (_ || _); [reflexivity|].
    destruct (from_string_toString10 z) as (h & -> & _). reflexivity.
  - cbn [from approved_but_refused].
    destruct (from_string_toString10 z) as (h & -> & _). reflexivity.
  - destruct bytes as [|x r]; [reflexivity|].
    cbn [from approved_but_refused].
    rewrite from_string_hexlify by discriminate. reflexivity.
Qed.

Lemma isBigNumberish_and_from_witness :
  isBigNumberish (VString "0x") = true /\
  is_object (VString "0x") = false /\
  is_Ok (from (VString "0x")) = negb (approved_but_refused (VString "0x")).
Proof.
  split; [reflexivity|]. split; [reflexivity|].
  apply (isBigNumberish_and_from (VString "0x")); reflexivity.
Defined.

(** ** Subtraction and addition *)

(** With an engine whose [add] and [sub] are the exact ones, subtracting an
    instance in canonical form from another and adding it back returns the
    first instance itself. *)
Theorem sub_then_add :
  forall (E : BN.Engine) a b,
    (forall x y, BN.add x y = Some (x + y)%Z) ->
    (forall x y, BN.sub x y = Some (x - y)%Z) ->
    canonical (toHexString a) = true ->
    canonical (toHexString b) = true ->
    exists r,
      sub a (VBigNumber b) = Ok r /\ add r (VBigNumber b) = Ok a.
Proof.
  intros E a b Hadd Hsub Ha Hb.
  destruct (toBN_canonical a Ha) as (x & Hx & Hdx).
  destruct (toBN_canonical b Hb) as (y & Hy & _).
  destruct (binary_value BN.sub a (VBigNumber b) x y _ Hx Hy (Hsub x y))
    as (r & Hr & _ & Hrv).
  exists r. split; [exact Hr|].
  destruct (binary_value BN.add r (VBigNumber b) _ y _ Hrv Hy (Hadd _ y))
    as (a' & Ha' & Hca' & Hva').
  unfold add. rewrite Ha'. f_equal.
  destruct (toBN_canonical a' Hca') as (x' & Hx' & Hdx').
  rewrite Hva' in Hx'. injection Hx' as <-.
  replace (x - y + y)%Z with x in Hdx' by lia.
  destruct a as [ha], a' as [ha']. cbn [toHexString _hex] in *.
  f_equal. exact (decode_injective _ _ _ Hca' Ha Hdx' Hdx).
Qed.

Lemma sub_then_add_witness :
  canonical (toHexString (mkBigNumber "0x0a")) = true /\
  canonical (toHexString (mkBigNumber "0x14")) = true /\
  exists r,
    sub (mkBigNumber "0x0a") (VBigNumber (mkBigNumber "0x14")) = Ok r /\
    add r (VBigNumber (mkBigNumber "0x14")) = Ok (mkBigNumber "0x0a").
Proof.
  split; [reflexivity|]. split; [reflexivity|].
  apply (sub_then_add BN.exact (mkBigNumber "0x0a") (mkBigNumber "0x14"));
    reflexivity.
Defined.

(** ** The hex path and the decimal path of the dispatcher *)

Lemma from_string_toString10_eq (z : Z) :
  from_string (BN.toString10 z) =
  (let* h := toHex_BN z in Ok (mkBigNumber h)).
Proof.
  unfold from_string.
  rewrite (matches_decimal_not_hex _ (toString10_matches z)).
  now rewrite toString10_matches, of_dec_toString10.
Qed.

(** For a non-negative integer [z], the hex literal made of [0x] and the
    engine's hex rendering of [z] is constructed as the same instance as the
    bigint [z], and the literal with a minus sign in front as the same
    instance as the bigint [-z]. *)
Theorem hex_and_decimal_paths_agree :
  forall z,
    (0 <= z)%Z ->
    from (VString ("0x" ++ BN.toString16 z)) = from (VBigInt z) /\
    from (VString ("-0x" ++ BN.toString16 z)) = from (VBigInt (- z)).
Proof.
  intros z Hz. cbn [from]. rewrite !from_string_toString10_eq.
  destruct (toString16_spec z) as (d & Hr & Hne & Hlow & _).
  assert ((z <? 0)%Z = false) as Hs by (apply Z.ltb_ge; lia).
  rewrite Hs in Hr.
  pose proof (forallb_weaken _ _ _ lower_hex_is_hex Hlow) as Hhex.
  pose proof (hex_first_not_sign _ Hhex) as Hn.
  assert (toHex_unsigned ("0x" ++ d) = toHex_unsigned d) as Hu.
  { rewrite !toHex_unsigned_spec, body_prefixed, (hex_body _ Hhex).
    reflexivity. }
  unfold from_string.
  rewrite Hr, (matches_hex_prefixed false d Hne Hhex).
  rewrite (matches_hex_prefixed true d Hne Hhex).
  unfold toHex_BN. rewrite Hr. split.
  - now rewrite !toHex_nonneg, Hu.
  - change ("-0x" ++ d) with (String "-" ("0x" ++ d)).
    rewrite toHex_neg by reflexivity. rewrite Hu.
    destruct z as [|p|p]; [| |lia].
    + cbn in Hr. subst d. reflexivity.
    + change (- Z.pos p)%Z with (Z.neg p).
      assert (BN.toString16 (Z.neg p) = String "-" d) as ->
        by (rewrite <- Hr; reflexivity).
      now rewrite toHex_neg.
Qed.

Lemma hex_and_decimal_paths_agree_witness :
  (0 <= 4096)%Z /\
  from (VString ("-0x" ++ BN.toString16 4096%Z)) = from (VBigInt (- 4096)%Z).
Proof.
  split; [lia|].
  apply (hex_and_decimal_paths_agree 4096%Z). lia.
Defined.
